(** * The rewrite orchestration engine of mathsteps

    A shallow embedding of [lib/simplifyExpressionNode.js]: the fixed-point
    driver [stepThroughExpression], the strategy dispatcher [step] and the
    step record builder [addStep], together with the properties the
    specification states about them.

    The file under study only orchestrates: the tree searches, the two
    normalisation passes, the printer, the unsupported-node detector, the deep
    copy and the [NodeStatus] class all live in other modules.  They enter the
    development as the fields of the class [Collaborators]; every theorem of
    the engine is proved for an arbitrary instance, and the stub instances of
    the module [Stub] serve to run the engine on concrete trees. *)

From Stdlib Require Import List String Ascii Bool Arith Lia ZArith DecimalString.
Import ListNotations.

Set Implicit Arguments.
Set Warnings "-register-all".
Local Open Scope string_scope.
Local Open Scope list_scope.

(** ** Console output *)

(** [console.log] and [console.error] are the only side effects of the file.
    A computation that may write to the console returns its value together
    with the lines it emitted, oldest first. *)

Inductive Output : Type :=
| ConsoleLog (line : string)
| ConsoleError (line : string).

Definition Console (A : Type) : Type := (A * list Output)%type.

Definition ret {A} (a : A) : Console A := (a, []).

Definition bind {A B} (m : Console A) (k : A -> Console B) : Console B :=
  let (a, o1) := m in
  let (b, o2) := k a in
  (b, o1 ++ o2).

Definition console_log (line : string) : Console unit := (tt, [ConsoleLog line]).
Definition console_error (line : string) : Console unit := (tt, [ConsoleError line]).

Definition value {A} (m : Console A) : A := fst m.
Definition emitted {A} (m : Console A) : list Output := snd m.

Notation "x <- m ;; k" := (bind m (fun x => k))
  (at level 61, m at next level, right associativity).
Notation "m ;;; k" := (bind m (fun _ => k))
  (at level 61, right associativity).

Definition isError (o : Output) : bool :=
  match o with ConsoleError _ => true | ConsoleLog _ => false end.

(** The lines written to [console.error]. *)
Definition errors (out : list Output) : list Output := filter isError out.

(** The newline character of the JavaScript literals ['\n']. *)
Definition nl : string := String (ascii_of_nat 10) EmptyString.

(** ** Change records and step records *)

Definition ChangeType : Type := string.

(** Modelled from the spec: the class [NodeStatus] of [util/NodeStatus.js],
    which is not part of the file under study.  It is the Change Record of the
    specification: a [changed] flag, a descriptive [changeType], the trees
    before and after the rewrite and the ordered nested sub-rewrites. *)
Inductive NodeStatus (Node : Type) : Type :=
  mkNodeStatus {
      changed : bool;
      changeType : ChangeType;
      oldNode : Node;
      newNode : Node;
      substeps : list (NodeStatus Node)
    }.

Arguments mkNodeStatus {Node} _ _ _ _ _.

(** [nodeStatus.hasChanged()]. *)
Definition hasChanged {Node} (nodeStatus : NodeStatus Node) : bool :=
  changed nodeStatus.

Definition NO_CHANGE : ChangeType := "NO_CHANGE".

(** Modelled from the spec: [NodeStatus.noChange(node)], the no-change record
    wrapping [node]; it has no sub-rewrites. *)
Definition noChange {Node} (node : Node) : NodeStatus Node :=
  mkNodeStatus false NO_CHANGE node node [].

(** The assignment [nodeStatus.newNode = n]. *)
Definition set_newNode {Node} (nodeStatus : NodeStatus Node) (n : Node)
  : NodeStatus Node :=
  mkNodeStatus (changed nodeStatus) (changeType nodeStatus)
               (oldNode nodeStatus) n (substeps nodeStatus).

(** The object literal pushed by [addStep]. *)
Inductive Step (Node : Type) : Type :=
  mkStep {
      step_changeType : ChangeType;
      step_oldNode : Node;
      step_newNode : Node;
      step_substeps : list (Step Node);
      asciimath : string
    }.

Arguments mkStep {Node} _ _ _ _ _.

(** ** Induction on change records *)

Section NodeStatusInduction.

Variable Node : Type.
Variable P : NodeStatus Node -> Prop.
Hypothesis step_case :
  forall c k o n subs, Forall P subs -> P (mkNodeStatus c k o n subs).

Fixpoint NodeStatus_nested_ind (nodeStatus : NodeStatus Node) : P nodeStatus :=
  match nodeStatus with
  | mkNodeStatus c k o n subs =>
      step_case c k o n
        ((fix all (l : list (NodeStatus Node)) : Forall P l :=
            match l with
            | [] => Forall_nil P
            | s :: rest => Forall_cons s (NodeStatus_nested_ind s) (all rest)
            end) subs)
  end.

End NodeStatusInduction.

(** ** The collaborators *)

(** The nine tree searches the file imports, by the names it binds them to. *)
Inductive Search : Type :=
| simplifyBasicsSearch
| simplifyDivisionSearch
| simplifyFractionsSearch
| evaluateArithmeticSearch
| collectAndCombineSearch
| breakUpNumeratorSearch
| multiplyFractionsSearch
| distributeSearch
| evaluateFunctionsSearch.

(** Everything [simplifyExpressionNode.js] requires from other modules.
    [print] takes its two optional arguments as options: [print(node)] passes
    none, [print(node, false, true)] passes both.  [search s] is the function
    exported by the module that [s] names.  [reset] is the method
    [nodeStatus.reset()], given as the status the object holds afterwards. *)
Class Collaborators (Node : Type) : Type :=
  {
    flattenOperands : Node -> Node;
    removeUnnecessaryParens : Node -> bool -> Node;
    hasUnsupportedNodes : Node -> bool;
    print : Node -> option bool -> option bool -> string;
    clone : Node -> Node;
    reset : NodeStatus Node -> NodeStatus Node;
    search : Search -> Node -> NodeStatus Node
  }.

(** The same collaborators around another assignment of the searches. *)
Definition withSearches {Node : Type} (C : Collaborators Node)
           (searches : Search -> Node -> NodeStatus Node) : Collaborators Node :=
  {| flattenOperands := @flattenOperands Node C;
     removeUnnecessaryParens := @removeUnnecessaryParens Node C;
     hasUnsupportedNodes := @hasUnsupportedNodes Node C;
     print := @print Node C;
     clone := @clone Node C;
     reset := @reset Node C;
     search := searches |}.

Section Engine.

Context {Node : Type} `{C : Collaborators Node}.

(** *** [addStep] *)

(** [steps.push({...})] followed by the debug output; the sub-steps are
    built first, by [forEach] over [nodeStatus.substeps], each call
    extending the [substeps] array built so far. *)
Fixpoint addStep (steps : list (Step Node)) (nodeStatus : NodeStatus Node)
         (debug : bool) {struct nodeStatus} : Console (list (Step Node)) :=
  match nodeStatus with
  | mkNodeStatus _ changeType_ oldNode_ newNode_ substeps_ =>
      let fix forEach (l : list (NodeStatus Node)) (substeps : list (Step Node))
        : Console (list (Step Node)) :=
        match l with
        | [] => ret substeps
        | substepStatus :: rest =>
            substeps' <- addStep substeps substepStatus debug ;;
            forEach rest substeps'
        end in
      substeps <- (if Nat.eqb (List.length substeps_) 0 then ret []
                   else forEach substeps_ []) ;;
      let steps := steps ++ [ mkStep changeType_
                                (removeUnnecessaryParens oldNode_ true)
                                (removeUnnecessaryParens newNode_ true)
                                substeps
                                (print newNode_ None None) ] in
      (if debug then
         console_log changeType_ ;;;
         console_log (print newNode_ None None ++ nl)
       else ret tt) ;;;
      ret steps
  end.

(** *** [step] *)

Definition simplificationTreeSearches : list Search :=
  [ simplifyBasicsSearch;
    simplifyDivisionSearch;
    simplifyFractionsSearch;
    evaluateArithmeticSearch;
    collectAndCombineSearch;
    breakUpNumeratorSearch;
    multiplyFractionsSearch;
    distributeSearch;
    evaluateFunctionsSearch ].

(** One invocation [simplificationTreeSearches[i](node)]: which search was
    called, and on which tree. *)
Definition Call : Type := (Search * Node)%type.

(** The [for] loop of [step] over the searches not yet tried.  Besides the
    status it returns, the loop reports the invocations it made, in order;
    this trace is not part of the JavaScript value. *)
Fixpoint stepLoop (searches : list Search) (node : Node)
  : NodeStatus Node * list Call :=
  match searches with
  | [] => (noChange node, [])
  | s :: rest =>
      let nodeStatus := search s node in
      let node1 := removeUnnecessaryParens (newNode nodeStatus) true in
      if hasChanged nodeStatus then
        let node2 := flattenOperands node1 in
        (set_newNode nodeStatus (clone node2), [(s, node)])
      else
        let node2 := flattenOperands node1 in
        let (r, calls) := stepLoop rest node2 in
        (r, (s, node) :: calls)
  end.

(** The two normalisation passes that open [step]. *)
Definition normalize (node : Node) : Node :=
  removeUnnecessaryParens (flattenOperands node) true.

Definition stepTraced (node : Node) : NodeStatus Node * list Call :=
  stepLoop simplificationTreeSearches (normalize node).

Definition step (node : Node) : NodeStatus Node := fst (stepTraced node).

(** The invocations [step node] makes. *)
Definition stepCalls (node : Node) : list Call := snd (stepTraced node).

(** *** [stepThroughExpression] *)

Definition MAX_STEP_COUNT : nat := 20.

(** The diagnostic written when the loop is cut. *)
Definition loopNotice (originalExpressionStr : string) : string :=
  "Math error: Potential infinite loop for expression: " ++
  originalExpressionStr ++ ", returning no steps".

(** The [while] loop, from the state of the locals [steps], [nodeStatus]
    and [iters] at its head.  It yields what the function returns from here
    on, [None] if [fuel] iterations were not enough to get there, and the
    value of the local [nodeStatus] at that point: the record of the last
    call of [step].  The test [iters++ === MAX_STEP_COUNT] compares the
    value [iters] had before the increment. *)
Fixpoint whileLoop (fuel : nat) (debug : bool) (originalExpressionStr : string)
         (steps : list (Step Node)) (nodeStatus : NodeStatus Node) (iters : nat)
  : Console (option (list (Step Node)) * NodeStatus Node) :=
  match fuel with
  | O => ret (None, nodeStatus)
  | S fuel' =>
      if hasChanged nodeStatus then
        steps1 <- addStep steps nodeStatus debug ;;
        let nodeStatus1 := reset nodeStatus in
        let nodeStatus2 := step (newNode nodeStatus1) in
        if Nat.eqb iters MAX_STEP_COUNT then
          console_error (loopNotice originalExpressionStr) ;;;
          ret (Some [], nodeStatus2)
        else
          whileLoop fuel' debug originalExpressionStr steps1 nodeStatus2 (S iters)
      else
        ret (Some steps, nodeStatus)
  end.

(** What a call leaves behind: the array it returns ([None] only if the
    loop ran out of fuel) and the last value of the local [nodeStatus],
    which is never assigned when the input is unsupported. *)
Record Exit : Type :=
  mkExit {
      returned : option (list (Step Node));
      lastStatus : option (NodeStatus Node)
    }.

Definition stepThroughExpressionFuel (fuel : nat) (node : Node) (debug : bool)
  : Console Exit :=
  (if debug then
     console_log (nl ++ nl ++ "Simplifying: " ++ print node (Some false) (Some true))
   else ret tt) ;;;
  if hasUnsupportedNodes node then
    ret (mkExit (Some []) None)
  else
    let originalExpressionStr := print node None None in
    r <- whileLoop fuel debug originalExpressionStr [] (step node) 0 ;;
    ret (mkExit (fst r) (Some (snd r))).

(** The loop body runs at most [MAX_STEP_COUNT + 1] times, see
    [whileLoop_fuel_irrelevant] below. *)
Definition stepThroughExpression (node : Node) (debug : bool) : Console Exit :=
  stepThroughExpressionFuel (S MAX_STEP_COUNT) node debug.

(** *** Notions the specification speaks of *)

(** The Step Record Builder, as the specification words it: the record of
    a Change Record carries its kind, both trees stripped of redundant
    grouping, the records of its sub-rewrites in their order, and the
    rendering of its [after] tree. *)
Fixpoint buildStep (nodeStatus : NodeStatus Node) : Step Node :=
  match nodeStatus with
  | mkNodeStatus _ changeType_ oldNode_ newNode_ substeps_ =>
      mkStep changeType_
             (removeUnnecessaryParens oldNode_ true)
             (removeUnnecessaryParens newNode_ true)
             (map buildStep substeps_)
             (print newNode_ None None)
  end.

(** What the debug mode prints for a Change Record: sub-rewrites first. *)
Fixpoint debugLines (nodeStatus : NodeStatus Node) : list Output :=
  match nodeStatus with
  | mkNodeStatus _ changeType_ _ newNode_ substeps_ =>
      flat_map debugLines substeps_ ++
      [ConsoleLog changeType_; ConsoleLog (print newNode_ None None ++ nl)]
  end.

(** A step record together with all the records nested in it. *)
Fixpoint records (s : Step Node) : list (Step Node) :=
  match s with
  | mkStep _ _ _ subs _ => s :: flat_map records subs
  end.

(** What the debug mode prints for a Change Record, if it is on. *)
Definition debugOutput (debug : bool) (nodeStatus : NodeStatus Node) : list Output :=
  if debug then debugLines nodeStatus else [].

(** What the debug mode prints on entry, if it is on. *)
Definition banner (debug : bool) (node : Node) : list Output :=
  if debug then
    [ConsoleLog (nl ++ nl ++ "Simplifying: " ++ print node (Some false) (Some true))]
  else [].

(** The call of [step] that follows the one that returned [nodeStatus]:
    [nodeStatus.reset(); nodeStatus = step(nodeStatus.newNode)]. *)
Definition nextStatus (nodeStatus : NodeStatus Node) : NodeStatus Node :=
  step (newNode (reset nodeStatus)).

(** The record of the [k]-th call of [step] the driver makes, counting
    from zero, were the loop never cut. *)
Fixpoint statusAt (k : nat) (node : Node) : NodeStatus Node :=
  match k with
  | O => step node
  | S k' => nextStatus (statusAt k' node)
  end.

(** The same sequence of records, from an arbitrary one onwards. *)
Fixpoint statusFrom (nodeStatus : NodeStatus Node) (k : nat) : NodeStatus Node :=
  match k with
  | O => nodeStatus
  | S k' => statusFrom (nextStatus nodeStatus) k'
  end.

Fixpoint statusesFrom (nodeStatus : NodeStatus Node) (n : nat)
  : list (NodeStatus Node) :=
  match n with
  | O => []
  | S n' => nodeStatus :: statusesFrom (nextStatus nodeStatus) n'
  end.

(** The change records of the calls [0 .. n-1]. *)
Definition firstStatuses (n : nat) (node : Node) : list (NodeStatus Node) :=
  statusesFrom (step node) n.

(** The tree [step] carries on with after search [s] reported no change
    on [node]. *)
Definition probe (node : Node) (s : Search) : Node :=
  flattenOperands (removeUnnecessaryParens (newNode (search s node)) true).

(** The tree [step] holds after the given searches all reported no
    change, starting from [node]. *)
Definition thread (searches : list Search) (node : Node) : Node :=
  fold_left probe searches node.

(** The invocations [step] makes if the given searches all report no
    change, starting from [node]. *)
Fixpoint probes (searches : list Search) (node : Node) : list Call :=
  match searches with
  | [] => []
  | s :: rest => (s, node) :: probes rest (probe node s)
  end.

(** The invocation reported no change. *)
Definition unchangedCall (c : Call) : Prop :=
  hasChanged (search (fst c) (snd c)) = false.

(** The record [step] returns when search [s], called on [node], fires. *)
Definition fired (s : Search) (node : Node) : NodeStatus Node :=
  set_newNode (search s node)
    (clone (flattenOperands
              (removeUnnecessaryParens (newNode (search s node)) true))).

End Engine.

(** ** Stub collaborators *)

(** To run the engine one needs trees and collaborators.  The stubs below
    follow the contracts the specification gives for them; the searches are
    ground rewrite rules, as in the test scenarios of the specification. *)

(** Modelled from the spec: the Expression Tree type, with the node names of
    mathjs.  A unary operator is an [OperatorNode] with one argument. *)
Inductive MathNode : Type :=
| ConstantNode (v : Z)
| SymbolNode (name : string)
| OperatorNode (op : string) (args : list MathNode)
| FunctionNode (fn : string) (args : list MathNode)
| ParenthesisNode (content : MathNode).

Module Stub.

(** Structural equality of trees. *)
Fixpoint eqb (a b : MathNode) {struct a} : bool :=
  let fix all2 (l1 l2 : list MathNode) {struct l1} : bool :=
    match l1, l2 with
    | [], [] => true
    | x :: xs, y :: ys => eqb x y && all2 xs ys
    | _, _ => false
    end in
  match a, b with
  | ConstantNode x, ConstantNode y => Z.eqb x y
  | SymbolNode x, SymbolNode y => String.eqb x y
  | OperatorNode o1 l1, OperatorNode o2 l2 => String.eqb o1 o2 && all2 l1 l2
  | FunctionNode f1 l1, FunctionNode f2 l2 => String.eqb f1 f2 && all2 l1 l2
  | ParenthesisNode x, ParenthesisNode y => eqb x y
  | _, _ => false
  end.

Definition associative (op : string) : bool :=
  String.eqb op "+" || String.eqb op "*".

(** The operands [child] contributes to a chain of [op]. *)
Definition splice (op : string) (child : MathNode) : list MathNode :=
  match child with
  | OperatorNode op' args => if String.eqb op op' then args else [child]
  | _ => [child]
  end.

(** Collapses nested chains of the same associative operator. *)
Fixpoint flatten (n : MathNode) : MathNode :=
  match n with
  | OperatorNode op args =>
      let args' := map flatten args in
      OperatorNode op (if associative op then flat_map (splice op) args' else args')
  | FunctionNode fn args => FunctionNode fn (map flatten args)
  | ParenthesisNode c => ParenthesisNode (flatten c)
  | _ => n
  end.

Definition sameOperator (op : string) (child : MathNode) : bool :=
  match child with
  | OperatorNode op' _ => String.eqb op op'
  | _ => false
  end.

(** No chain of an associative operator is nested in a chain of the same
    operator. *)
Fixpoint flat (n : MathNode) : bool :=
  match n with
  | OperatorNode op args =>
      forallb flat args &&
      (negb (associative op) || forallb (fun c => negb (sameOperator op c)) args)
  | FunctionNode _ args => forallb flat args
  | ParenthesisNode c => flat c
  | _ => true
  end.

Definition grouped (n : MathNode) : bool :=
  match n with ParenthesisNode _ => true | _ => false end.

(** Grouping around the whole expression is redundant. *)
Fixpoint stripRoot (n : MathNode) : MathNode :=
  match n with
  | ParenthesisNode c => stripRoot c
  | _ => n
  end.

(** Grouping around a literal, a symbol, a function application or another
    grouping is redundant. *)
Definition regroup (c : MathNode) : MathNode :=
  match c with
  | OperatorNode _ _ => ParenthesisNode c
  | _ => c
  end.

Fixpoint stripInner (n : MathNode) : MathNode :=
  match n with
  | OperatorNode op args => OperatorNode op (map stripInner args)
  | FunctionNode fn args => FunctionNode fn (map stripInner args)
  | ParenthesisNode c => regroup (stripInner c)
  | _ => n
  end.

Definition removeParens (n : MathNode) (rootNode : bool) : MathNode :=
  stripInner (if rootNode then stripRoot n else n).

Definition string_of_Z (z : Z) : string := NilZero.string_of_int (Z.to_int z).

(** Renders a tree; the optional arguments play no role in the stub. *)
Fixpoint render (n : MathNode) : string :=
  match n with
  | ConstantNode v => string_of_Z v
  | SymbolNode x => x
  | OperatorNode op args => String.concat (" " ++ op ++ " ") (map render args)
  | FunctionNode fn args => fn ++ "(" ++ String.concat ", " (map render args) ++ ")"
  | ParenthesisNode c => "(" ++ render c ++ ")"
  end.

(** Only [abs] is a supported function. *)
Fixpoint unsupported (n : MathNode) : bool :=
  match n with
  | OperatorNode _ args => existsb unsupported args
  | FunctionNode fn args => negb (String.eqb fn "abs") || existsb unsupported args
  | ParenthesisNode c => unsupported c
  | _ => false
  end.

(** A search that rewrites the tree [lhs] to [rhs] and nothing else. *)
Definition rewriteRule (kind : ChangeType) (lhs rhs : MathNode)
           (subs : list (NodeStatus MathNode)) (node : MathNode)
  : NodeStatus MathNode :=
  if eqb node lhs then mkNodeStatus true kind node rhs subs
  else noChange node.

(** A search that turns [lhs] into [rhs] without counting it as a step. *)
Definition silentRule (lhs rhs : MathNode) (node : MathNode)
  : NodeStatus MathNode :=
  if eqb node lhs then mkNodeStatus false NO_CHANGE node rhs []
  else noChange node.

(** A search that lowers a positive literal by one. *)
Definition countDown (node : MathNode) : NodeStatus MathNode :=
  match node with
  | ConstantNode v =>
      if (0 <? v)%Z then
        mkNodeStatus true "SIMPLIFY_ARITHMETIC" node (ConstantNode (v - 1)) []
      else noChange node
  | _ => noChange node
  end.

(** The collaborators around a given assignment of the nine searches. *)
Definition collaborators (searches : Search -> MathNode -> NodeStatus MathNode)
  : Collaborators MathNode :=
  {| flattenOperands := flatten;
     removeUnnecessaryParens := removeParens;
     hasUnsupportedNodes := unsupported;
     print := fun n _ _ => render n;
     clone := fun n => n;
     reset := fun nodeStatus => nodeStatus;
     search := searches |}.

Definition x : MathNode := SymbolNode "x".
Definition y : MathNode := SymbolNode "y".

(** Strategy A rewrites [x] to [y], strategy B rewrites [y] back to [x]. *)
Definition oscillate (s : Search) : MathNode -> NodeStatus MathNode :=
  match s with
  | simplifyBasicsSearch => rewriteRule "X_TO_Y" x y []
  | simplifyDivisionSearch => rewriteRule "Y_TO_X" y x []
  | _ => noChange
  end.

(** Only the arithmetic search does anything: it counts a literal down. *)
Definition counting (s : Search) : MathNode -> NodeStatus MathNode :=
  match s with
  | evaluateArithmeticSearch => countDown
  | _ => noChange
  end.

Definition two_times_x : MathNode := OperatorNode "*" [ConstantNode 2; x].
Definition x_times_two : MathNode := OperatorNode "*" [x; ConstantNode 2].

(** The basic search moves the coefficient of [x * 2] to the front
    without counting it as a step; nothing else ever happens. *)
Definition reordering (s : Search) : MathNode -> NodeStatus MathNode :=
  match s with
  | simplifyBasicsSearch => silentRule x_times_two two_times_x
  | _ => noChange
  end.

(** [1 * (x + y) + 3] and what is left of it once the multiplication by
    one is gone: a sum inside a sum. *)
Definition one_times_sum_plus_three : MathNode :=
  OperatorNode "+"
    [OperatorNode "*" [ConstantNode 1; ParenthesisNode (OperatorNode "+" [x; y])];
     ConstantNode 3].
Definition sum_plus_three : MathNode :=
  OperatorNode "+" [OperatorNode "+" [x; y]; ConstantNode 3].

Definition unnesting (s : Search) : MathNode -> NodeStatus MathNode :=
  match s with
  | simplifyBasicsSearch =>
      rewriteRule "REMOVE_MULTIPLYING_BY_ONE"
                  one_times_sum_plus_three sum_plus_three []
  | _ => noChange
  end.

(** As [unnesting], with the arithmetic search counting literals down. *)
Definition unnesting_then_counting (s : Search) : MathNode -> NodeStatus MathNode :=
  match s with
  | simplifyBasicsSearch =>
      rewriteRule "REMOVE_MULTIPLYING_BY_ONE"
                  one_times_sum_plus_three sum_plus_three []
  | evaluateArithmeticSearch => countDown
  | _ => noChange
  end.

(** [2 * (1 + 1)] evaluates to [4] in two explained sub-steps: the
    grouped sum [(1 + 1)] becomes [(2)], then [2 * 2] becomes [4]. *)
Definition two_times_group : MathNode :=
  OperatorNode "*"
    [ConstantNode 2;
     ParenthesisNode (OperatorNode "+" [ConstantNode 1; ConstantNode 1])].

Definition group_evaluated : NodeStatus MathNode :=
  mkNodeStatus true "SIMPLIFY_ARITHMETIC"
    (ParenthesisNode (OperatorNode "+" [ConstantNode 1; ConstantNode 1]))
    (ParenthesisNode (ConstantNode 2)) [].

Definition product_evaluated : NodeStatus MathNode :=
  mkNodeStatus true "SIMPLIFY_ARITHMETIC"
    (OperatorNode "*" [ConstantNode 2; ConstantNode 2])
    (ConstantNode 4) [].

Definition explaining (s : Search) : MathNode -> NodeStatus MathNode :=
  match s with
  | evaluateArithmeticSearch =>
      rewriteRule "SIMPLIFY_ARITHMETIC" two_times_group (ConstantNode 4)
                  [group_evaluated; product_evaluated]
  | _ => noChange
  end.

(** Only the arithmetic search is registered, and all it knows is that
    [2 + 2] is [4]. *)
Definition two_plus_two : MathNode :=
  OperatorNode "+" [ConstantNode 2; ConstantNode 2].

Definition adding (s : Search) : MathNode -> NodeStatus MathNode :=
  match s with
  | evaluateArithmeticSearch =>
      rewriteRule "SIMPLIFY_ARITHMETIC" two_plus_two (ConstantNode 4) []
  | _ => noChange
  end.

(** Two searches that both match [2 + 2]: the arithmetic search makes it
    [4], the collecting search would make it [2 * 2]. *)
Definition conflicting (s : Search) : MathNode -> NodeStatus MathNode :=
  match s with
  | evaluateArithmeticSearch =>
      rewriteRule "SIMPLIFY_ARITHMETIC" two_plus_two (ConstantNode 4) []
  | collectAndCombineSearch =>
      rewriteRule "COLLECT_LIKE_TERMS" two_plus_two
                  (OperatorNode "*" [ConstantNode 2; ConstantNode 2]) []
  | _ => noChange
  end.

(** A measure on trees: the sum of the literals, negative ones counting
    as zero. *)
Fixpoint weight (n : MathNode) : nat :=
  match n with
  | ConstantNode v => Z.to_nat v
  | SymbolNode _ => 0
  | OperatorNode _ args => list_sum (map weight args)
  | FunctionNode _ args => list_sum (map weight args)
  | ParenthesisNode c => weight c
  end.

(** The step record [addStep] builds for the first sub-step of
    [explaining]: the stored tree is [2], the rendering is of [(2)]. *)
Definition group_step : Step MathNode :=
  mkStep "SIMPLIFY_ARITHMETIC"
         (OperatorNode "+" [ConstantNode 1; ConstantNode 1])
         (ConstantNode 2) [] "(2)".

Definition product_step : Step MathNode :=
  mkStep "SIMPLIFY_ARITHMETIC"
         (OperatorNode "*" [ConstantNode 2; ConstantNode 2])
         (ConstantNode 4) [] "4".

Definition explained_step : Step MathNode :=
  mkStep "SIMPLIFY_ARITHMETIC" two_times_group (ConstantNode 4)
         [group_step; product_step] "4".

(** [abs(-4)], supported, and [sqrt(x)], not supported. *)
Definition abs_of_minus_four : MathNode :=
  FunctionNode "abs" [OperatorNode "-" [ConstantNode 4]].
Definition sqrt_of_x : MathNode := FunctionNode "sqrt" [x].

End Stub.

(** ** Induction on trees *)

Section MathNodeInduction.

Variable P : MathNode -> Prop.
Hypothesis constant_case : forall v, P (ConstantNode v).
Hypothesis symbol_case : forall name, P (SymbolNode name).
Hypothesis operator_case : forall op args, Forall P args -> P (OperatorNode op args).
Hypothesis function_case : forall fn args, Forall P args -> P (FunctionNode fn args).
Hypothesis parenthesis_case : forall c, P c -> P (ParenthesisNode c).

Fixpoint MathNode_nested_ind (n : MathNode) : P n :=
  let fix all (l : list MathNode) : Forall P l :=
    match l with
    | [] => Forall_nil P
    | a :: rest => Forall_cons a (MathNode_nested_ind a) (all rest)
    end in
  match n with
  | ConstantNode v => constant_case v
  | SymbolNode name => symbol_case name
  | OperatorNode op args => operator_case op (all args)
  | FunctionNode fn args => function_case fn (all args)
  | ParenthesisNode c => parenthesis_case (MathNode_nested_ind c)
  end.

End MathNodeInduction.

(** * Properties of the engine *)

(** ** The console monad *)

Lemma value_bind {A B} (m : Console A) (k : A -> Console B) :
  value (bind m k) = value (k (value m)).
Proof.
  unfold value, bind. destruct m as [a o1]. simpl.
  destruct (k a) as [b o2]. reflexivity.
Qed.

Lemma emitted_bind {A B} (m : Console A) (k : A -> Console B) :
  emitted (bind m k) = emitted m ++ emitted (k (value m)).
Proof.
  unfold emitted, value, bind. destruct m as [a o1]. simpl.
  destruct (k a) as [b o2]. reflexivity.
Qed.

Lemma console_eta {A} (m : Console A) : m = (value m, emitted m).
Proof. destruct m; reflexivity. Qed.

Lemma errors_app (o1 o2 : list Output) : errors (o1 ++ o2) = errors o1 ++ errors o2.
Proof. unfold errors. apply filter_app. Qed.

Section EngineFacts.

Context {Node : Type} `{C : Collaborators Node}.

(** *** [addStep] against [buildStep] *)

Lemma addStep_spec (nodeStatus : NodeStatus Node) :
  forall steps debug,
    addStep steps nodeStatus debug =
      (steps ++ [buildStep nodeStatus], debugOutput debug nodeStatus).
Proof.
  induction nodeStatus as [c k o n subs IH] using NodeStatus_nested_ind.
  intros steps debug.
  cbn [addStep buildStep].
  match goal with
  | |- context [ if _ then ret [] else ?f subs [] ] =>
      assert (Hloop : forall l acc,
                 Forall (fun ns => forall steps debug,
                             addStep steps ns debug =
                               (steps ++ [buildStep ns], debugOutput debug ns)) l ->
                 f l acc = (acc ++ map buildStep l,
                            if debug then flat_map debugLines l else []))
  end.
  { induction l as [|s rest IHl]; intros acc Hall.
    - cbn. rewrite app_nil_r. destruct debug; reflexivity.
    - inversion Hall as [|? ? Hs Hrest]; subst.
      cbn. rewrite Hs. cbn. rewrite (IHl _ Hrest).
      rewrite <- app_assoc. cbn.
      destruct debug; reflexivity. }
  assert (Hsub : (if Nat.eqb (List.length subs) 0 then ret []
                  else (fix forEach (l : list (NodeStatus Node))
                          (substeps : list (Step Node)) {struct l}
                         : Console (list (Step Node)) :=
                          match l with
                          | [] => ret substeps
                          | substepStatus :: rest =>
                              substeps' <- addStep substeps substepStatus debug ;;
                              forEach rest substeps'
                          end) subs [])
                 = (map buildStep subs,
                    if debug then flat_map debugLines subs else [])).
  { destruct subs as [|s rest].
    - cbn. destruct debug; reflexivity.
    - cbn [List.length Nat.eqb]. rewrite (Hloop _ _ IH). reflexivity. }
  rewrite Hsub. unfold debugOutput.
  destruct debug; cbn; rewrite ?app_nil_r; reflexivity.
Qed.

End EngineFacts.

Section DispatcherFacts.

Context {Node : Type} `{C : Collaborators Node}.

Lemma thread_app (pre post : list Search) (node : Node) :
  thread (pre ++ post) node = thread post (thread pre node).
Proof. unfold thread. apply fold_left_app. Qed.

Lemma probes_app (pre post : list Search) (node : Node) :
  probes (pre ++ post) node = probes pre node ++ probes post (thread pre node).
Proof.
  revert node. induction pre as [|s pre IH]; intros node; cbn.
  - reflexivity.
  - rewrite IH. reflexivity.
Qed.

Lemma probes_searches (searches : list Search) (node : Node) :
  map fst (probes searches node) = searches.
Proof.
  revert node. induction searches as [|s rest IH]; intros node; cbn.
  - reflexivity.
  - rewrite IH. reflexivity.
Qed.

(** As long as the searches report no change, the loop moves on with the
    tree they returned, normalised again. *)
Lemma stepLoop_unchanged_prefix (pre post : list Search) (node : Node) :
  Forall unchangedCall (probes pre node) ->
  stepLoop (pre ++ post) node =
    (fst (stepLoop post (thread pre node)),
     probes pre node ++ snd (stepLoop post (thread pre node))).
Proof.
  revert node. induction pre as [|s pre IH]; intros node Hall.
  - cbn. destruct (stepLoop post node); reflexivity.
  - cbn in Hall. inversion Hall as [|? ? Hs Hrest]; subst.
    unfold unchangedCall in Hs. cbn in Hs.
    cbn [app stepLoop]. rewrite Hs.
    fold (probe node s). rewrite (IH _ Hrest). reflexivity.
Qed.

Lemma stepLoop_fires (s : Search) (post : list Search) (node : Node) :
  hasChanged (search s node) = true ->
  stepLoop (s :: post) node = (fired s node, [(s, node)]).
Proof. intros H. cbn. rewrite H. reflexivity. Qed.

(** The loop either stops at the first search that reports a change, or
    runs through all of them. *)
Lemma stepLoop_spec (searches : list Search) (node : Node) :
  (exists pre s post,
      searches = pre ++ s :: post /\
      Forall unchangedCall (probes pre node) /\
      hasChanged (search s (thread pre node)) = true /\
      stepLoop searches node =
        (fired s (thread pre node), probes (pre ++ [s]) node))
  \/ (Forall unchangedCall (probes searches node) /\
      stepLoop searches node =
        (noChange (thread searches node), probes searches node)).
Proof.
  revert node. induction searches as [|s rest IH]; intros node.
  - right. split; [constructor | reflexivity].
  - destruct (hasChanged (search s node)) eqn:Hs.
    + left. exists [], s, rest. cbn.
      repeat split; try assumption; try constructor.
      rewrite Hs. reflexivity.
    + assert (Hu : unchangedCall (s, node)) by exact Hs.
      destruct (IH (probe node s)) as
        [(pre & s' & post & -> & Hall & Hfire & Heq) | (Hall & Heq)].
      * left. exists (s :: pre), s', post. cbn.
        repeat split; try assumption.
        -- constructor; assumption.
        -- rewrite Hs. fold (probe node s). rewrite Heq. reflexivity.
      * right. cbn. split.
        -- constructor; assumption.
        -- rewrite Hs. fold (probe node s). rewrite Heq. reflexivity.
Qed.

Lemma stepTraced_eq (node : Node) : stepTraced node = (step node, stepCalls node).
Proof. unfold step, stepCalls. destruct (stepTraced node); reflexivity. Qed.

Lemma hasChanged_fired (s : Search) (node : Node) :
  hasChanged (fired s node) = hasChanged (search s node).
Proof. reflexivity. Qed.

Lemma newNode_fired (s : Search) (node : Node) :
  newNode (fired s node) =
    clone (flattenOperands
             (removeUnnecessaryParens (newNode (search s node)) true)).
Proof. reflexivity. Qed.

(** [stepLoop_spec] for the whole of [step]. *)
Lemma step_cases (node : Node) :
  (exists pre s post,
      simplificationTreeSearches = pre ++ s :: post /\
      Forall unchangedCall (probes pre (normalize node)) /\
      hasChanged (search s (thread pre (normalize node))) = true /\
      step node = fired s (thread pre (normalize node)) /\
      stepCalls node = probes (pre ++ [s]) (normalize node))
  \/ (Forall unchangedCall (probes simplificationTreeSearches (normalize node)) /\
      step node = noChange (thread simplificationTreeSearches (normalize node)) /\
      stepCalls node = probes simplificationTreeSearches (normalize node)).
Proof.
  pose proof (stepTraced_eq node) as Heq. unfold stepTraced in Heq.
  destruct (stepLoop_spec simplificationTreeSearches (normalize node))
    as [(pre & s & post & Hsplit & Hall & Hfire & Hres) | (Hall & Hres)].
  - left. exists pre, s, post. rewrite Hres in Heq.
    injection Heq as Hstep Hcalls. repeat split; auto.
  - right. rewrite Hres in Heq. injection Heq as Hstep Hcalls.
    repeat split; auto.
Qed.

End DispatcherFacts.

Section DriverFacts.

Context {Node : Type} `{C : Collaborators Node}.

Lemma statusFrom_succ (nodeStatus : NodeStatus Node) (k : nat) :
  statusFrom nodeStatus (S k) = nextStatus (statusFrom nodeStatus k).
Proof.
  revert nodeStatus. induction k as [|k IH]; intros nodeStatus.
  - reflexivity.
  - cbn [statusFrom] in *. apply IH.
Qed.

Lemma statusAt_from (k : nat) (node : Node) :
  statusAt k node = statusFrom (step node) k.
Proof.
  induction k as [|k IH].
  - reflexivity.
  - rewrite statusFrom_succ, <- IH. reflexivity.
Qed.

Lemma statusesFrom_length (nodeStatus : NodeStatus Node) (n : nat) :
  List.length (statusesFrom nodeStatus n) = n.
Proof.
  revert nodeStatus. induction n as [|n IH]; intros nodeStatus; cbn.
  - reflexivity.
  - rewrite IH. reflexivity.
Qed.

(** The loop leaves through its condition when the record of some call
    within the bound reports no change: it returns one step record per
    change record seen, in order. *)
Lemma whileLoop_stops (k : nat) :
  forall fuel debug orig steps nodeStatus iters,
    (forall j, j < k -> hasChanged (statusFrom nodeStatus j) = true) ->
    hasChanged (statusFrom nodeStatus k) = false ->
    iters + k <= MAX_STEP_COUNT ->
    k < fuel ->
    whileLoop fuel debug orig steps nodeStatus iters =
      ((Some (steps ++ map buildStep (statusesFrom nodeStatus k)),
        statusFrom nodeStatus k),
       flat_map (debugOutput debug) (statusesFrom nodeStatus k)).
Proof.
  induction k as [|k IH]; intros fuel debug orig steps nodeStatus iters
                                 Hbefore Hstop Hiters Hfuel.
  - destruct fuel as [|fuel]; [lia|].
    cbn in Hstop. cbn. rewrite Hstop. cbn. rewrite app_nil_r. reflexivity.
  - destruct fuel as [|fuel]; [lia|].
    assert (H0 : hasChanged nodeStatus = true) by (apply (Hbefore 0); lia).
    cbn [whileLoop]. rewrite H0, addStep_spec.
    assert (Hneq : Nat.eqb iters MAX_STEP_COUNT = false)
      by (apply Nat.eqb_neq; lia).
    unfold bind at 1. rewrite Hneq.
    fold (nextStatus nodeStatus).
    rewrite (IH fuel debug orig _ (nextStatus nodeStatus) (S iters)).
    + cbn. rewrite <- app_assoc. reflexivity.
    + intros j Hj. apply (Hbefore (S j)). lia.
    + exact Hstop.
    + lia.
    + lia.
Qed.

(** The loop is cut when the records of the first [MAX_STEP_COUNT + 1]
    calls all report a change: it writes the notice and returns a fresh
    empty array. *)
Lemma whileLoop_cut (d : nat) :
  forall fuel debug orig steps nodeStatus iters,
    iters + d = MAX_STEP_COUNT ->
    (forall j, j <= d -> hasChanged (statusFrom nodeStatus j) = true) ->
    d < fuel ->
    whileLoop fuel debug orig steps nodeStatus iters =
      ((Some [], statusFrom nodeStatus (S d)),
       flat_map (debugOutput debug) (statusesFrom nodeStatus (S d))
         ++ [ConsoleError (loopNotice orig)]).
Proof.
  induction d as [|d IH]; intros fuel debug orig steps nodeStatus iters
                                 Hiters Hall Hfuel.
  - destruct fuel as [|fuel]; [lia|].
    assert (H0 : hasChanged nodeStatus = true) by (apply (Hall 0); lia).
    cbn [whileLoop]. rewrite H0, addStep_spec.
    assert (Heq : Nat.eqb iters MAX_STEP_COUNT = true)
      by (apply Nat.eqb_eq; lia).
    unfold bind at 1. rewrite Heq. cbn. rewrite app_nil_r. reflexivity.
  - destruct fuel as [|fuel]; [lia|].
    assert (H0 : hasChanged nodeStatus = true) by (apply (Hall 0); lia).
    cbn [whileLoop]. rewrite H0, addStep_spec.
    assert (Hneq : Nat.eqb iters MAX_STEP_COUNT = false)
      by (apply Nat.eqb_neq; lia).
    unfold bind at 1. rewrite Hneq.
    fold (nextStatus nodeStatus).
    rewrite (IH fuel debug orig _ (nextStatus nodeStatus) (S iters)).
    + cbn. repeat rewrite <- app_assoc. reflexivity.
    + lia.
    + intros j Hj. apply (Hall (S j)). lia.
    + lia.
Qed.

(** Where the sequence of records first reports no change, if it does so
    within [n] calls. *)
Lemma first_unchanged (n : nat) (nodeStatus : NodeStatus Node) :
  (exists k, k < n /\
             (forall j, j < k -> hasChanged (statusFrom nodeStatus j) = true) /\
             hasChanged (statusFrom nodeStatus k) = false)
  \/ (forall j, j < n -> hasChanged (statusFrom nodeStatus j) = true).
Proof.
  induction n as [|n IH].
  - right. intros j Hj. lia.
  - destruct IH as [(k & Hk & Hbefore & Hstop) | Hall].
    + left. exists k. repeat split; try assumption. lia.
    + destruct (hasChanged (statusFrom nodeStatus n)) eqn:Hn.
      * right. intros j Hj.
        destruct (Nat.eq_dec j n) as [-> | Hne]; [exact Hn | apply Hall; lia].
      * left. exists n. repeat split; try assumption. lia.
Qed.

(** With more fuel than the bound the loop always returns, and what it
    does no longer depends on the fuel. *)
Lemma whileLoop_fuel_irrelevant (fuel : nat) debug orig steps
      (nodeStatus : NodeStatus Node) :
  MAX_STEP_COUNT < fuel ->
  whileLoop fuel debug orig steps nodeStatus 0 =
    whileLoop (S MAX_STEP_COUNT) debug orig steps nodeStatus 0.
Proof.
  intros Hfuel.
  destruct (first_unchanged (S MAX_STEP_COUNT) nodeStatus)
    as [(k & Hk & Hbefore & Hstop) | Hall].
  - rewrite (@whileLoop_stops k fuel), (@whileLoop_stops k (S MAX_STEP_COUNT));
      try assumption; try lia. reflexivity.
  - rewrite (@whileLoop_cut MAX_STEP_COUNT fuel),
      (@whileLoop_cut MAX_STEP_COUNT (S MAX_STEP_COUNT));
      try lia; try reflexivity; intros j Hj; apply Hall; lia.
Qed.

Lemma whileLoop_returns debug orig steps (nodeStatus : NodeStatus Node) :
  exists v,
    fst (value (whileLoop (S MAX_STEP_COUNT) debug orig steps nodeStatus 0)) = Some v.
Proof.
  destruct (first_unchanged (S MAX_STEP_COUNT) nodeStatus)
    as [(k & Hk & Hbefore & Hstop) | Hall].
  - rewrite (@whileLoop_stops k); try assumption; try lia.
    eexists; reflexivity.
  - rewrite (@whileLoop_cut MAX_STEP_COUNT); try lia.
    + eexists; reflexivity.
    + intros j Hj; apply Hall; lia.
Qed.

End DriverFacts.

Section DriverResults.

Context {Node : Type} `{C : Collaborators Node}.

Lemma errors_debugLines (nodeStatus : NodeStatus Node) :
  errors (debugLines nodeStatus) = [].
Proof.
  induction nodeStatus as [c k o n subs IH] using NodeStatus_nested_ind.
  cbn [debugLines]. rewrite errors_app. cbn.
  rewrite app_nil_r.
  induction IH as [|s rest Hs _ IHrest]; cbn.
  - reflexivity.
  - rewrite errors_app, Hs, IHrest. reflexivity.
Qed.

Lemma errors_debugOutput debug (l : list (NodeStatus Node)) :
  errors (flat_map (debugOutput debug) l) = [].
Proof.
  induction l as [|s rest IH]; cbn.
  - reflexivity.
  - rewrite errors_app, IH, app_nil_r.
    unfold debugOutput. destruct debug; [apply errors_debugLines | reflexivity].
Qed.

Lemma debugOutput_off (l : list (NodeStatus Node)) :
  flat_map (debugOutput false) l = [].
Proof. induction l as [|s rest IH]; [reflexivity | exact IH]. Qed.

Lemma errors_banner debug (node : Node) : errors (banner debug node) = [].
Proof. destruct debug; reflexivity. Qed.

Lemma stepThroughExpressionFuel_unfold fuel (node : Node) debug :
  stepThroughExpressionFuel fuel node debug =
    if hasUnsupportedNodes node then
      (mkExit (Some []) None, banner debug node)
    else
      let r := whileLoop fuel debug (print node None None) [] (step node) 0 in
      (mkExit (fst (value r)) (Some (snd (value r))),
       banner debug node ++ emitted r).
Proof.
  unfold stepThroughExpressionFuel, banner.
  destruct (hasUnsupportedNodes node).
  - destruct debug; reflexivity.
  - destruct (whileLoop fuel debug (print node None None) [] (step node) 0)
      as [[v last] out].
    destruct debug; cbn; rewrite app_nil_r; reflexivity.
Qed.

(** An unsupported tree is turned away before the loop. *)
Lemma stepThroughExpression_unsupported (node : Node) debug :
  hasUnsupportedNodes node = true ->
  stepThroughExpression node debug = (mkExit (Some []) None, banner debug node).
Proof.
  intros H. unfold stepThroughExpression.
  rewrite stepThroughExpressionFuel_unfold, H. reflexivity.
Qed.

(** The call of [step] number [k <= MAX_STEP_COUNT] is the first to report
    no change: the trace has one record per earlier call. *)
Lemma stepThroughExpression_stops (k : nat) (node : Node) debug :
  hasUnsupportedNodes node = false ->
  k <= MAX_STEP_COUNT ->
  (forall j, j < k -> hasChanged (statusAt j node) = true) ->
  hasChanged (statusAt k node) = false ->
  stepThroughExpression node debug =
    (mkExit (Some (map buildStep (firstStatuses k node))) (Some (statusAt k node)),
     banner debug node ++ flat_map (debugOutput debug) (firstStatuses k node)).
Proof.
  intros Hsup Hk Hbefore Hstop. unfold stepThroughExpression.
  rewrite stepThroughExpressionFuel_unfold, Hsup.
  rewrite (@whileLoop_stops _ _ k).
  - cbn. rewrite statusAt_from. reflexivity.
  - intros j Hj. rewrite <- statusAt_from. apply Hbefore, Hj.
  - rewrite <- statusAt_from. exact Hstop.
  - lia.
  - lia.
Qed.

(** The first [MAX_STEP_COUNT + 1] calls of [step] all report a change:
    the loop is cut. *)
Lemma stepThroughExpression_cut (node : Node) debug :
  hasUnsupportedNodes node = false ->
  (forall j, j <= MAX_STEP_COUNT -> hasChanged (statusAt j node) = true) ->
  stepThroughExpression node debug =
    (mkExit (Some []) (Some (statusAt (S MAX_STEP_COUNT) node)),
     banner debug node
       ++ flat_map (debugOutput debug) (firstStatuses (S MAX_STEP_COUNT) node)
       ++ [ConsoleError (loopNotice (print node None None))]).
Proof.
  intros Hsup Hall. unfold stepThroughExpression.
  rewrite stepThroughExpressionFuel_unfold, Hsup.
  rewrite (@whileLoop_cut _ _ MAX_STEP_COUNT).
  - unfold value, emitted, fst, snd. rewrite statusAt_from. reflexivity.
  - reflexivity.
  - intros j Hj. rewrite <- statusAt_from. apply Hall, Hj.
  - lia.
Qed.

(** The three ways a call can go. *)
Lemma stepThroughExpression_cases (node : Node) :
  hasUnsupportedNodes node = true
  \/ (hasUnsupportedNodes node = false /\
      exists k, k <= MAX_STEP_COUNT /\
                (forall j, j < k -> hasChanged (statusAt j node) = true) /\
                hasChanged (statusAt k node) = false)
  \/ (hasUnsupportedNodes node = false /\
      forall j, j <= MAX_STEP_COUNT -> hasChanged (statusAt j node) = true).
Proof.
  destruct (hasUnsupportedNodes node); [left; reflexivity | right].
  destruct (first_unchanged (S MAX_STEP_COUNT) (step node))
    as [(k & Hk & Hbefore & Hstop) | Hall].
  - left. split; [reflexivity|]. exists k. repeat split.
    + lia.
    + intros j Hj. rewrite statusAt_from. apply Hbefore, Hj.
    + rewrite statusAt_from. exact Hstop.
  - right. split; [reflexivity|].
    intros j Hj. rewrite statusAt_from. apply Hall. lia.
Qed.

(** The function returns on every input: the fuel of the model is never
    used up. *)
Lemma stepThroughExpression_returns (node : Node) debug :
  exists trace, returned (value (stepThroughExpression node debug)) = Some trace.
Proof.
  destruct (stepThroughExpression_cases node)
    as [Hun | [(Hsup & k & Hk & Hbefore & Hstop) | (Hsup & Hall)]].
  - rewrite stepThroughExpression_unsupported by assumption.
    eexists; reflexivity.
  - rewrite (@stepThroughExpression_stops k) by assumption.
    eexists; reflexivity.
  - rewrite stepThroughExpression_cut by assumption.
    eexists; reflexivity.
Qed.

Lemma stepThroughExpressionFuel_enough fuel (node : Node) debug :
  MAX_STEP_COUNT < fuel ->
  stepThroughExpressionFuel fuel node debug = stepThroughExpression node debug.
Proof.
  intros Hfuel. unfold stepThroughExpression.
  rewrite !stepThroughExpressionFuel_unfold.
  rewrite whileLoop_fuel_irrelevant by assumption. reflexivity.
Qed.

End DriverResults.

(** ** The statements of the specification *)

Section Claims.

Context {Node : Type} `{C : Collaborators Node}.

(** C1. When more than [MAX_STEP_COUNT] = 20 iterations of the loop are
    needed, that is when the first 21 calls of the dispatcher all report a
    change, [stepThroughExpression] returns the empty array and nothing of
    what it had accumulated; on a supported tree the only thing written
    to [console.error] is the notice.  Nothing is thrown: the call
    returns. *)
Theorem bound_exceeded_returns_empty (node : Node) (debug : bool) :
  (forall k, k <= MAX_STEP_COUNT -> hasChanged (statusAt k node) = true) ->
  returned (value (stepThroughExpression node debug)) = Some [] /\
  (hasUnsupportedNodes node = false ->
   errors (emitted (stepThroughExpression node debug)) =
     [ConsoleError (loopNotice (print node None None))]).
Proof.
  intros Hall.
  destruct (hasUnsupportedNodes node) eqn:Hsup.
  - rewrite stepThroughExpression_unsupported by assumption.
    split; [reflexivity | discriminate].
  - rewrite stepThroughExpression_cut by assumption.
    split; [reflexivity | intros _].
    unfold emitted, snd.
    rewrite !errors_app, errors_banner, errors_debugOutput. reflexivity.
Qed.

(** C3, amended.  [step] returns the record of the first search, in the
    order of [simplificationTreeSearches], that reports a change on the
    tree handed to it: same flag, kind, [oldNode] and sub-steps, and as
    [newNode] that record's [newNode] stripped of redundant grouping, then
    flattened and copied.  The searches it has invoked are the ones up to
    that search and no later one.  If no search reports a change it returns
    the no-change record of the tree the last search left, normalised. *)
Theorem step_first_match_wins (node : Node) :
  (exists pre s post,
      let given := thread pre (normalize node) in
      let record := search s given in
      simplificationTreeSearches = pre ++ s :: post /\
      Forall unchangedCall (probes pre (normalize node)) /\
      hasChanged record = true /\
      hasChanged (step node) = true /\
      changeType (step node) = changeType record /\
      oldNode (step node) = oldNode record /\
      substeps (step node) = substeps record /\
      newNode (step node) =
        clone (flattenOperands (removeUnnecessaryParens (newNode record) true)) /\
      stepCalls node = probes pre (normalize node) ++ [(s, given)] /\
      map fst (stepCalls node) = pre ++ [s])
  \/ (Forall unchangedCall (probes simplificationTreeSearches (normalize node)) /\
      step node = noChange (thread simplificationTreeSearches (normalize node)) /\
      map fst (stepCalls node) = simplificationTreeSearches).
Proof.
  destruct (step_cases node)
    as [(pre & s & post & Hsplit & Hall & Hfire & Hstep & Hcalls)
       | (Hall & Hstep & Hcalls)].
  - left. exists pre, s, post. cbn zeta.
    rewrite Hstep, Hcalls, hasChanged_fired, newNode_fired, probes_searches.
    rewrite probes_app. cbn [probes].
    repeat split; assumption.
  - right. rewrite Hcalls, probes_searches. repeat split; assumption.
Qed.

(** C4. The dispatcher holds exactly nine searches and tries them in the
    order basics, division, fractions, arithmetic, collect and combine,
    break up numerator, multiply fractions, distribute, functions, on every
    tree.  Whatever place [s] has in that order, once the searches listed
    before it have reported no change [step] calls them in that order and
    then [s], on the tree they left; if [s] reports a change its record is
    the one returned and no later search is called; if the last of the nine
    reports no change either, nothing more is tried and the result is the
    no-change record. *)
Theorem searches_tried_in_fixed_order
        (node : Node) (pre : list Search) (s : Search) (post : list Search) :
  [ simplifyBasicsSearch; simplifyDivisionSearch; simplifyFractionsSearch;
    evaluateArithmeticSearch; collectAndCombineSearch; breakUpNumeratorSearch;
    multiplyFractionsSearch; distributeSearch; evaluateFunctionsSearch ]
  = pre ++ s :: post ->
  Forall unchangedCall (probes pre (normalize node)) ->
  let given := thread pre (normalize node) in
  (exists later,
      stepCalls node = probes pre (normalize node) ++ (s, given) :: later) /\
  (hasChanged (search s given) = true ->
   step node = fired s given /\
   stepCalls node = probes pre (normalize node) ++ [(s, given)]) /\
  (hasChanged (search s given) = false -> post = [] ->
   step node = noChange (probe given s) /\
   stepCalls node = probes pre (normalize node) ++ [(s, given)]).
Proof.
  intros Hsplit Hall. cbn zeta.
  set (given := thread pre (normalize node)).
  assert (Heq : stepTraced node =
                  (fst (stepLoop (s :: post) given),
                   probes pre (normalize node) ++ snd (stepLoop (s :: post) given))).
  { unfold stepTraced, simplificationTreeSearches. rewrite Hsplit.
    apply stepLoop_unchanged_prefix. exact Hall. }
  rewrite stepTraced_eq in Heq.
  destruct (hasChanged (search s given)) eqn:Hs.
  - rewrite (stepLoop_fires s post given Hs) in Heq.
    cbn [fst snd] in Heq. injection Heq as Hstep Hcalls.
    split; [exists []; exact Hcalls|].
    split; [intros _; split; assumption | discriminate].
  - assert (Hloop : stepLoop (s :: post) given =
                      (fst (stepLoop post (probe given s)),
                       (s, given) :: snd (stepLoop post (probe given s)))).
    { cbn [stepLoop]. rewrite Hs. fold (probe given s).
      destruct (stepLoop post (probe given s)); reflexivity. }
    rewrite Hloop in Heq. cbn [fst snd] in Heq. injection Heq as Hstep Hcalls.
    split; [eexists; exact Hcalls|].
    split; [discriminate|].
    intros _ ->. cbn [stepLoop fst snd] in Hstep, Hcalls.
    split; assumption.
Qed.

(** C5. On a tree with unsupported nodes [stepThroughExpression] returns
    the empty array: the loop is never entered, [step] is never called,
    and nothing is written to [console.error]. *)
Theorem unsupported_returns_empty (node : Node) (debug : bool) :
  hasUnsupportedNodes node = true ->
  returned (value (stepThroughExpression node debug)) = Some [] /\
  lastStatus (value (stepThroughExpression node debug)) = None /\
  errors (emitted (stepThroughExpression node debug)) = [].
Proof.
  intros H. rewrite stepThroughExpression_unsupported by assumption.
  repeat split. apply errors_banner.
Qed.

(** C6, amended.  If no search reports a change on the tree it is handed,
    [stepThroughExpression] returns the empty array and writes no notice;
    on a supported tree the last record is the no-change record of the tree
    the searches left, normalised after each of them.  That tree is the
    input tree when the input is normalised and every search hands back,
    up to normalisation, the tree it was given. *)
Theorem no_change_returns_empty (node : Node) (debug : bool) :
  Forall unchangedCall (probes simplificationTreeSearches (normalize node)) ->
  returned (value (stepThroughExpression node debug)) = Some [] /\
  errors (emitted (stepThroughExpression node debug)) = [] /\
  (hasUnsupportedNodes node = false ->
   lastStatus (value (stepThroughExpression node debug)) =
     Some (noChange (thread simplificationTreeSearches (normalize node)))) /\
  (normalize node = node -> (forall s, probe node s = node) ->
   thread simplificationTreeSearches (normalize node) = node).
Proof.
  intros Hall.
  assert (Hstep : step node =
                    noChange (thread simplificationTreeSearches (normalize node))).
  { destruct (step_cases node)
      as [(pre & s & post & Hsplit & _ & Hfire & _) | (_ & Hstep & _)];
      [exfalso | exact Hstep].
    rewrite Hsplit, probes_app in Hall.
    apply Forall_app in Hall. destruct Hall as [_ Hpost].
    cbn in Hpost. inversion Hpost as [|? ? Hs _]; subst.
    unfold unchangedCall in Hs. cbn in Hs. congruence. }
  assert (Hstable : normalize node = node -> (forall s, probe node s = node) ->
                    thread simplificationTreeSearches (normalize node) = node).
  { intros Hnorm Hprobe. rewrite Hnorm.
    unfold thread. generalize simplificationTreeSearches as l.
    induction l as [|s rest IH]; cbn; [reflexivity|].
    rewrite Hprobe. exact IH. }
  destruct (hasUnsupportedNodes node) eqn:Hsup.
  - rewrite stepThroughExpression_unsupported by assumption.
    repeat split; try discriminate; try assumption. apply errors_banner.
  - rewrite (@stepThroughExpression_stops _ _ 0); try assumption.
    + cbn [value emitted fst snd returned lastStatus firstStatuses
             statusesFrom map flat_map statusAt].
      rewrite app_nil_r, errors_banner, Hstep. repeat split; assumption.
    + unfold MAX_STEP_COUNT; lia.
    + intros j Hj; lia.
    + cbn. rewrite Hstep. reflexivity.
Qed.

(** C7. [addStep] appends to [steps] the step record of the change
    record: its sub-rewrites turned into step records recursively, each
    nested list in its original order, and both [oldNode] and [newNode]
    passed through [removeUnnecessaryParens], as [buildStep] says. *)
Theorem addStep_builds_step_records
        (steps : list (Step Node)) (nodeStatus : NodeStatus Node) (debug : bool) :
  value (addStep steps nodeStatus debug) = steps ++ [buildStep nodeStatus] /\
  step_oldNode (buildStep nodeStatus) =
    removeUnnecessaryParens (oldNode nodeStatus) true /\
  step_newNode (buildStep nodeStatus) =
    removeUnnecessaryParens (newNode nodeStatus) true /\
  step_substeps (buildStep nodeStatus) = map buildStep (substeps nodeStatus).
Proof.
  rewrite addStep_spec. destruct nodeStatus. repeat split.
Qed.

(** C9. When a search reports no change, [step] goes on with the tree
    that search returned, stripped and flattened again, and not with the
    tree the search was given: the searches after it are run on that
    tree, the next one is invoked on it, and if the search was the last
    one the no-change record [step] returns wraps it. *)
Theorem unchanged_result_is_adopted
        (node : Node) (pre : list Search) (s : Search) (post : list Search) :
  simplificationTreeSearches = pre ++ s :: post ->
  Forall unchangedCall (probes (pre ++ [s]) (normalize node)) ->
  let given := thread pre (normalize node) in
  let adopted :=
    flattenOperands (removeUnnecessaryParens (newNode (search s given)) true) in
  step node = fst (stepLoop post adopted) /\
  stepCalls node =
    probes pre (normalize node) ++ (s, given) :: snd (stepLoop post adopted) /\
  (forall s' post', post = s' :: post' -> In (s', adopted) (stepCalls node)) /\
  (post = [] -> step node = noChange adopted).
Proof.
  intros Hsplit Hall given adopted.
  assert (Heq : stepTraced node =
                  (fst (stepLoop post adopted),
                   probes (pre ++ [s]) (normalize node)
                     ++ snd (stepLoop post adopted))).
  { unfold stepTraced. rewrite Hsplit.
    replace (pre ++ s :: post) with ((pre ++ [s]) ++ post)
      by (rewrite <- app_assoc; reflexivity).
    rewrite stepLoop_unchanged_prefix by assumption.
    rewrite thread_app. reflexivity. }
  rewrite stepTraced_eq in Heq. injection Heq as Hstep Hcalls.
  rewrite probes_app, <- app_assoc in Hcalls. cbn in Hcalls.
  fold given in Hcalls.
  repeat split; try assumption.
  - intros s' post' ->. rewrite Hcalls.
    apply in_or_app. right. right.
    cbn. destruct (hasChanged (search s' adopted)).
    + left. reflexivity.
    + destruct (stepLoop post' _). left. reflexivity.
  - intros ->. rewrite Hstep. reflexivity.
Qed.

(** C10. The [debug] flag changes neither what [stepThroughExpression]
    returns nor what it writes to [console.error]; with [debug] off
    nothing but the notice is ever written. *)
Theorem debug_only_affects_console (node : Node) :
  value (stepThroughExpression node true) = value (stepThroughExpression node false) /\
  errors (emitted (stepThroughExpression node true)) =
    errors (emitted (stepThroughExpression node false)) /\
  errors (emitted (stepThroughExpression node false)) =
    emitted (stepThroughExpression node false).
Proof.
  destruct (stepThroughExpression_cases node)
    as [Hun | [(Hsup & k & Hk & Hbefore & Hstop) | (Hsup & Hall)]].
  - rewrite !stepThroughExpression_unsupported by assumption.
    repeat split.
  - rewrite !(@stepThroughExpression_stops _ _ k) by assumption.
    unfold value, emitted, fst, snd.
    rewrite !errors_app, !errors_banner, !errors_debugOutput, debugOutput_off.
    repeat split.
  - rewrite !stepThroughExpression_cut by assumption.
    unfold value, emitted, fst, snd.
    rewrite !errors_app, !errors_banner, !errors_debugOutput, debugOutput_off.
    repeat split.
Qed.

End Claims.

(** ** Searches that lower a measure *)

Section Measure.

Context {Node : Type} `{C : Collaborators Node}.

Variable measure : Node -> nat.

Hypothesis flattenOperands_measure :
  forall t, measure (flattenOperands t) <= measure t.
Hypothesis removeUnnecessaryParens_measure :
  forall t rootNode, measure (removeUnnecessaryParens t rootNode) <= measure t.
Hypothesis clone_measure :
  forall t, measure (clone t) <= measure t.
Hypothesis reset_measure :
  forall nodeStatus, measure (newNode (reset nodeStatus)) <= measure (newNode nodeStatus).
Hypothesis search_measure :
  forall s t, measure (newNode (search s t)) <= measure t.
Hypothesis search_lowers :
  forall s t, hasChanged (search s t) = true ->
              measure (newNode (search s t)) < measure t.

Lemma normalize_measure (node : Node) : measure (normalize node) <= measure node.
Proof.
  unfold normalize.
  eapply Nat.le_trans; [apply removeUnnecessaryParens_measure|].
  apply flattenOperands_measure.
Qed.

Lemma probe_measure (node : Node) (s : Search) : measure (probe node s) <= measure node.
Proof.
  unfold probe.
  eapply Nat.le_trans; [apply flattenOperands_measure|].
  eapply Nat.le_trans; [apply removeUnnecessaryParens_measure|].
  apply search_measure.
Qed.

Lemma thread_measure (searches : list Search) (node : Node) :
  measure (thread searches node) <= measure node.
Proof.
  revert node. induction searches as [|s rest IH]; intros node; cbn.
  - apply Nat.le_refl.
  - eapply Nat.le_trans; [apply IH | apply probe_measure].
Qed.

(** A call of [step] charges one unit of the measure for a change. *)
Lemma step_measure (node : Node) :
  measure (newNode (step node)) + (if hasChanged (step node) then 1 else 0)
  <= measure node.
Proof.
  pose proof (normalize_measure node) as Hnorm.
  destruct (step_cases node)
    as [(pre & s & post & _ & _ & Hfire & Hstep & _) | (_ & Hstep & _)];
    rewrite Hstep.
  - rewrite hasChanged_fired, Hfire, newNode_fired.
    apply Nat.le_trans with (measure (thread pre (normalize node)));
      [| eapply Nat.le_trans; [apply thread_measure | exact Hnorm]].
    rewrite Nat.add_1_r. apply Nat.le_succ_l.
    eapply Nat.le_lt_trans; [| apply search_lowers; exact Hfire].
    eapply Nat.le_trans; [apply clone_measure|].
    eapply Nat.le_trans; [apply flattenOperands_measure|].
    apply removeUnnecessaryParens_measure.
  - cbn [noChange hasChanged changed newNode]. rewrite Nat.add_0_r.
    eapply Nat.le_trans; [apply thread_measure | exact Hnorm].
Qed.

(** The sequence of records reaches one that reports no change after at
    most as many calls as the measure allows. *)
Lemma statuses_settle (m : nat) :
  forall nodeStatus : NodeStatus Node,
    measure (newNode nodeStatus) + (if hasChanged nodeStatus then 1 else 0) <= m ->
    exists k, k <= m /\
              (forall j, j < k -> hasChanged (statusFrom nodeStatus j) = true) /\
              hasChanged (statusFrom nodeStatus k) = false.
Proof.
  induction m as [|m IH]; intros nodeStatus Hm.
  - exists 0. destruct (hasChanged nodeStatus) eqn:Hc; [lia|].
    repeat split; [lia | intros j Hj; lia | exact Hc].
  - destruct (hasChanged nodeStatus) eqn:Hc.
    + destruct (IH (nextStatus nodeStatus)) as (k & Hk & Hbefore & Hstop).
      { unfold nextStatus.
        pose proof (step_measure (newNode (reset nodeStatus))).
        pose proof (reset_measure nodeStatus). lia. }
      exists (S k). repeat split.
      * lia.
      * intros [|j] Hj; [exact Hc | apply Hbefore; lia].
      * exact Hstop.
    + exists 0. repeat split; [lia | intros j Hj; lia | exact Hc].
Qed.

(** When the searches lower the measure, the first [MAX_STEP_COUNT + 1]
    calls of [step] can all report a change only on a tree whose measure
    exceeds [MAX_STEP_COUNT]. *)
Lemma cut_needs_large_measure (node : Node) :
  (forall j, j <= MAX_STEP_COUNT -> hasChanged (statusAt j node) = true) ->
  MAX_STEP_COUNT < measure node.
Proof.
  intros Hall.
  destruct (@statuses_settle (measure node) (step node) (step_measure node))
    as (k & Hk & _ & Hstop).
  destruct (Nat.le_gt_cases (measure node) MAX_STEP_COUNT) as [Hle | Hgt];
    [exfalso | exact Hgt].
  rewrite <- statusAt_from in Hstop.
  rewrite Hall in Hstop by (eapply Nat.le_trans; eassumption).
  discriminate.
Qed.

End Measure.

(** ** The engine on stub collaborators *)

(** *** The stub normalisers keep the weight of a tree *)

Lemma weight_splice_one (op : string) (child : MathNode) :
  list_sum (map Stub.weight (Stub.splice op child)) = Stub.weight child.
Proof.
  destruct child as [v | name | op' args | fn args | c]; cbn;
    try (rewrite ?Nat.add_0_r; reflexivity).
  destruct (String.eqb op op'); cbn; rewrite ?Nat.add_0_r; reflexivity.
Qed.

Lemma weight_splice (op : string) (l : list MathNode) :
  list_sum (map Stub.weight (flat_map (Stub.splice op) l)) =
    list_sum (map Stub.weight l).
Proof.
  induction l as [|child rest IH]; cbn [flat_map].
  - reflexivity.
  - rewrite map_app, list_sum_app, IH, weight_splice_one. reflexivity.
Qed.

Lemma weight_map (f : MathNode -> MathNode) (l : list MathNode) :
  Forall (fun n => Stub.weight (f n) = Stub.weight n) l ->
  list_sum (map Stub.weight (map f l)) = list_sum (map Stub.weight l).
Proof.
  unfold list_sum. induction 1 as [|n rest Hn _ IH]; cbn.
  - reflexivity.
  - rewrite Hn, IH. reflexivity.
Qed.

Lemma weight_flatten (n : MathNode) : Stub.weight (Stub.flatten n) = Stub.weight n.
Proof.
  induction n as [v | name | op args IH | fn args IH | c IH]
    using MathNode_nested_ind; cbn [Stub.flatten Stub.weight].
  - reflexivity.
  - reflexivity.
  - destruct (Stub.associative op).
    + rewrite weight_splice. apply weight_map, IH.
    + apply weight_map, IH.
  - apply weight_map, IH.
  - exact IH.
Qed.

Lemma weight_stripRoot (n : MathNode) : Stub.weight (Stub.stripRoot n) = Stub.weight n.
Proof.
  induction n as [v | name | op args _ | fn args _ | c IH]
    using MathNode_nested_ind; cbn; try reflexivity. exact IH.
Qed.

Lemma weight_regroup (n : MathNode) : Stub.weight (Stub.regroup n) = Stub.weight n.
Proof. destruct n; reflexivity. Qed.

Lemma weight_stripInner (n : MathNode) : Stub.weight (Stub.stripInner n) = Stub.weight n.
Proof.
  induction n as [v | name | op args IH | fn args IH | c IH]
    using MathNode_nested_ind; cbn [Stub.stripInner Stub.weight].
  - reflexivity.
  - reflexivity.
  - apply weight_map, IH.
  - apply weight_map, IH.
  - rewrite weight_regroup. exact IH.
Qed.

Lemma weight_removeParens (n : MathNode) (rootNode : bool) :
  Stub.weight (Stub.removeParens n rootNode) = Stub.weight n.
Proof.
  unfold Stub.removeParens. rewrite weight_stripInner.
  destruct rootNode; [apply weight_stripRoot | reflexivity].
Qed.

Lemma counting_lowers (s : Search) (t : MathNode) :
  hasChanged (Stub.counting s t) = true ->
  Stub.weight (newNode (Stub.counting s t)) < Stub.weight t.
Proof.
  destruct s; cbn; try discriminate.
  destruct t as [v | name | op args | fn args | c]; cbn; try discriminate.
  destruct (Z.ltb_spec 0 v) as [Hpos | Hneg]; cbn; [intros _ | discriminate].
  lia.
Qed.

Lemma counting_weight (s : Search) (t : MathNode) :
  Stub.weight (newNode (Stub.counting s t)) <= Stub.weight t.
Proof.
  destruct s; cbn; try apply Nat.le_refl.
  destruct t as [v | name | op args | fn args | c]; cbn; try apply Nat.le_refl.
  destruct (Z.ltb_spec 0 v) as [Hpos | Hneg]; cbn; lia.
Qed.

Lemma reordering_never_changes (s : Search) (t : MathNode) :
  hasChanged (Stub.reordering s t) = false.
Proof.
  destruct s; cbn; try reflexivity.
  unfold Stub.silentRule. destruct (Stub.eqb t Stub.x_times_two); reflexivity.
Qed.

(** *** The stub normalisers are idempotent *)

Lemma splice_flat (op : string) (child : MathNode) :
  Stub.associative op = true ->
  Stub.flat child = true ->
  forallb Stub.flat (Stub.splice op child) = true /\
  forallb (fun c => negb (Stub.sameOperator op c)) (Stub.splice op child) = true.
Proof.
  intros Hassoc Hflat.
  destruct child as [v | name | op' args | fn args | c]; cbn in Hflat |- *;
    try (rewrite ?Hflat; split; reflexivity).
  destruct (String.eqb op op') eqn:Hop.
  - apply String.eqb_eq in Hop. subst op'.
    rewrite Hassoc in Hflat. cbn in Hflat.
    apply andb_true_iff in Hflat. exact Hflat.
  - cbn. rewrite Hop, Hflat. split; reflexivity.
Qed.

Lemma flatten_flat (n : MathNode) : Stub.flat (Stub.flatten n) = true.
Proof.
  induction n as [v | name | op args IH | fn args IH | c IH]
    using MathNode_nested_ind; cbn [Stub.flatten Stub.flat]; try reflexivity.
  - destruct (Stub.associative op) eqn:Hassoc; cbn.
    + induction IH as [|a rest Ha _ IHrest]; [reflexivity|].
      cbn [map flat_map]. rewrite !forallb_app.
      destruct (splice_flat op (Stub.flatten a) Hassoc Ha) as [H1 H2].
      apply andb_true_iff in IHrest. destruct IHrest as [H3 H4].
      rewrite H1, H2, H3, H4. reflexivity.
    + rewrite andb_true_r.
      induction IH as [|a rest Ha _ IHrest]; [reflexivity|].
      cbn. rewrite Ha. exact IHrest.
  - induction IH as [|a rest Ha _ IHrest]; [reflexivity|].
    cbn. rewrite Ha. exact IHrest.
  - exact IH.
Qed.

Lemma map_fixed (f : MathNode -> MathNode) (l : list MathNode) :
  Forall (fun n => Stub.flat n = true -> f n = n) l ->
  forallb Stub.flat l = true ->
  map f l = l.
Proof.
  induction 1 as [|a rest Ha _ IH]; cbn; intros Hall.
  - reflexivity.
  - apply andb_true_iff in Hall. destruct Hall as [H1 H2].
    rewrite (Ha H1), (IH H2). reflexivity.
Qed.

Lemma splice_fixed (op : string) (l : list MathNode) :
  forallb (fun c => negb (Stub.sameOperator op c)) l = true ->
  flat_map (Stub.splice op) l = l.
Proof.
  induction l as [|a rest IH]; cbn [forallb flat_map]; intros Hall.
  - reflexivity.
  - apply andb_true_iff in Hall. destruct Hall as [H1 H2].
    rewrite (IH H2).
    destruct a as [v | name | op' args | fn args | c]; try reflexivity.
    cbn in H1. cbn. apply negb_true_iff in H1. rewrite H1. reflexivity.
Qed.

Lemma flatten_fixed (n : MathNode) : Stub.flat n = true -> Stub.flatten n = n.
Proof.
  induction n as [v | name | op args IH | fn args IH | c IH]
    using MathNode_nested_ind; cbn [Stub.flatten Stub.flat]; intros Hflat;
    try reflexivity.
  - apply andb_true_iff in Hflat. destruct Hflat as [Hargs Hchain].
    rewrite (@map_fixed _ _ IH Hargs).
    destruct (Stub.associative op); [|reflexivity].
    cbn in Hchain. rewrite (@splice_fixed _ _ Hchain). reflexivity.
  - rewrite (@map_fixed _ _ IH Hflat). reflexivity.
  - rewrite (IH Hflat). reflexivity.
Qed.

Lemma stub_flatten_idempotent (n : MathNode) :
  Stub.flatten (Stub.flatten n) = Stub.flatten n.
Proof. apply flatten_fixed, flatten_flat. Qed.

Lemma stripInner_idempotent (n : MathNode) :
  Stub.stripInner (Stub.stripInner n) = Stub.stripInner n.
Proof.
  induction n as [v | name | op args IH | fn args IH | c IH]
    using MathNode_nested_ind; cbn [Stub.stripInner]; try reflexivity.
  - f_equal. rewrite map_map.
    induction IH as [|a rest Ha _ IHrest]; cbn; [reflexivity|].
    rewrite Ha, IHrest. reflexivity.
  - f_equal. rewrite map_map.
    induction IH as [|a rest Ha _ IHrest]; cbn; [reflexivity|].
    rewrite Ha, IHrest. reflexivity.
  - destruct (Stub.stripInner c) as [v | name | op args | fn args | c'] eqn:Hc;
      cbn [Stub.regroup Stub.stripInner] in *; try exact IH.
    rewrite IH. reflexivity.
Qed.

Lemma stripRoot_ungrouped (n : MathNode) : Stub.grouped (Stub.stripRoot n) = false.
Proof.
  induction n as [v | name | op args _ | fn args _ | c IH]
    using MathNode_nested_ind; cbn; try reflexivity. exact IH.
Qed.

Lemma stripRoot_fixed (n : MathNode) : Stub.grouped n = false -> Stub.stripRoot n = n.
Proof. destruct n; cbn; try reflexivity. discriminate. Qed.

Lemma stripInner_ungrouped (n : MathNode) :
  Stub.grouped n = false -> Stub.grouped (Stub.stripInner n) = false.
Proof. destruct n; cbn; try reflexivity. discriminate. Qed.

Lemma stub_removeParens_idempotent (n : MathNode) (rootNode : bool) :
  Stub.removeParens (Stub.removeParens n rootNode) rootNode =
    Stub.removeParens n rootNode.
Proof.
  unfold Stub.removeParens. destruct rootNode.
  - rewrite (@stripRoot_fixed _ (@stripInner_ungrouped _ (stripRoot_ungrouped n))).
    apply stripInner_idempotent.
  - apply stripInner_idempotent.
Qed.

(** *** Witnesses and counterexamples *)

(** The first scenario of the specification: [2 + 2] with only an arithmetic
    search yields exactly one step record, from [2 + 2] to [4], without
    sub-steps. *)
Example two_plus_two_scenario :
  value (@stepThroughExpression _ (Stub.collaborators Stub.adding)
           Stub.two_plus_two false) =
    mkExit (Some [mkStep "SIMPLIFY_ARITHMETIC" Stub.two_plus_two
                         (ConstantNode 4) [] "4"])
           (Some (noChange (ConstantNode 4))).
Proof. vm_compute. reflexivity. Qed.

(** C1 at the oscillating searches of the specification: [x] is rewritten
    to [y] and back for ever, the loop is cut and the notice written. *)
Lemma bound_exceeded_returns_empty_witness :
  (forall k, k <= MAX_STEP_COUNT ->
             hasChanged (@statusAt _ (Stub.collaborators Stub.oscillate) k Stub.x) = true) /\
  returned (value (@stepThroughExpression _ (Stub.collaborators Stub.oscillate)
                     Stub.x true)) = Some [] /\
  errors (emitted (@stepThroughExpression _ (Stub.collaborators Stub.oscillate)
                     Stub.x true)) =
    [ConsoleError
       "Math error: Potential infinite loop for expression: x, returning no steps"].
Proof.
  assert (H : forall k, k <= MAX_STEP_COUNT ->
                        hasChanged (@statusAt _ (Stub.collaborators Stub.oscillate)
                                      k Stub.x) = true).
  { intros k Hk. unfold MAX_STEP_COUNT in Hk.
    do 21 (destruct k as [|k]; [vm_compute; reflexivity|]). lia. }
  split; [exact H|].
  destruct (@bound_exceeded_returns_empty _ (Stub.collaborators Stub.oscillate)
              Stub.x true H) as [Hret Herr].
  split; [exact Hret | apply Herr; reflexivity].
Defined.

(** C2 as stated fails: the counting search lowers the weight of the tree
    at every change, yet on the literal [25] the loop is cut, the array
    returned is empty and the last call of the dispatcher reported a change
    (from [4] to [3]). *)
Lemma lowering_searches_are_cut_short :
  (forall s t, hasChanged (Stub.counting s t) = true ->
               Stub.weight (newNode (Stub.counting s t)) < Stub.weight t) /\
  value (@stepThroughExpression _ (Stub.collaborators Stub.counting)
           (ConstantNode 25) false) =
    mkExit (Some [])
           (Some (mkNodeStatus true "SIMPLIFY_ARITHMETIC"
                               (ConstantNode 4) (ConstantNode 3) [])) /\
  hasChanged (mkNodeStatus true "SIMPLIFY_ARITHMETIC"
                           (ConstantNode 4) (ConstantNode 3) []) = true.
Proof.
  split; [exact counting_lowers | split; vm_compute; reflexivity].
Qed.

(** C3 as stated fails: on [1 * (x + y) + 3] the basic search fires and
    returns [(x + y) + 3] as a sum inside a sum; stripped of redundant
    grouping that tree is itself, but the record [step] returns holds
    [x + y + 3], the tree flattened after stripping. *)
Lemma fired_newNode_is_flattened :
  @normalize _ (Stub.collaborators Stub.unnesting) Stub.one_times_sum_plus_three =
    Stub.one_times_sum_plus_three /\
  hasChanged (Stub.unnesting simplifyBasicsSearch Stub.one_times_sum_plus_three) = true /\
  @stepCalls _ (Stub.collaborators Stub.unnesting) Stub.one_times_sum_plus_three =
    [(simplifyBasicsSearch, Stub.one_times_sum_plus_three)] /\
  newNode (@step _ (Stub.collaborators Stub.unnesting) Stub.one_times_sum_plus_three) <>
    Stub.removeParens
      (newNode (Stub.unnesting simplifyBasicsSearch Stub.one_times_sum_plus_three))
      true.
Proof.
  repeat split; try (vm_compute; reflexivity).
  vm_compute. discriminate.
Qed.

(** C5 at [sqrt(x)]. *)
Lemma unsupported_returns_empty_witness :
  Stub.unsupported Stub.sqrt_of_x = true /\
  returned (value (@stepThroughExpression _ (Stub.collaborators Stub.counting)
                     Stub.sqrt_of_x true)) = Some [] /\
  lastStatus (value (@stepThroughExpression _ (Stub.collaborators Stub.counting)
                       Stub.sqrt_of_x true)) = None /\
  errors (emitted (@stepThroughExpression _ (Stub.collaborators Stub.counting)
                     Stub.sqrt_of_x true)) = [].
Proof.
  split; [reflexivity|].
  apply (@unsupported_returns_empty _ (Stub.collaborators Stub.counting)
           Stub.sqrt_of_x true).
  reflexivity.
Defined.

(** C6 as stated fails: no search of [reordering] ever reports a change, the
    input [x * 2] is normalised, the array returned is empty, and yet the
    tree the engine ends on is [2 * x]. *)
Lemma unreported_change_reaches_final_tree :
  (forall s t, hasChanged (Stub.reordering s t) = false) /\
  @normalize _ (Stub.collaborators Stub.reordering) Stub.x_times_two =
    Stub.x_times_two /\
  value (@stepThroughExpression _ (Stub.collaborators Stub.reordering)
           Stub.x_times_two false) =
    mkExit (Some []) (Some (noChange Stub.two_times_x)) /\
  Stub.two_times_x <> Stub.x_times_two.
Proof.
  split; [exact reordering_never_changes|].
  repeat split; try (vm_compute; reflexivity).
  vm_compute. discriminate.
Qed.

(** C6, amended, at the same input. *)
Lemma no_change_returns_empty_witness :
  returned (value (@stepThroughExpression _ (Stub.collaborators Stub.reordering)
                     Stub.x_times_two true)) = Some [] /\
  lastStatus (value (@stepThroughExpression _ (Stub.collaborators Stub.reordering)
                       Stub.x_times_two true)) = Some (noChange Stub.two_times_x).
Proof.
  destruct (@no_change_returns_empty _ (Stub.collaborators Stub.reordering)
              Stub.x_times_two true) as (Hret & _ & Hlast & _).
  - repeat constructor.
  - split; [exact Hret | exact (Hlast eq_refl)].
Defined.

(** C8.  [addStep] stores [newNode] stripped of redundant grouping but
    takes [asciimath] from the tree as it was handed over.  In the trace of
    [2 * (1 + 1)] the top-level record renders the tree it stores, [4];
    the record of the first sub-step stores the tree [2], whose rendering is
    [2], while its [asciimath] is [(2)]. *)
Lemma asciimath_is_not_of_stored_newNode :
  returned (value (@stepThroughExpression _ (Stub.collaborators Stub.explaining)
                     Stub.two_times_group false)) = Some [Stub.explained_step] /\
  asciimath Stub.explained_step = Stub.render (step_newNode Stub.explained_step) /\
  In Stub.group_step (records Stub.explained_step) /\
  step_newNode Stub.group_step = ConstantNode 2 /\
  asciimath Stub.group_step = "(2)" /\
  Stub.render (step_newNode Stub.group_step) = "2" /\
  asciimath Stub.group_step <> Stub.render (step_newNode Stub.group_step).
Proof.
  repeat split; try (vm_compute; reflexivity).
  - right. left. reflexivity.
  - vm_compute. discriminate.
Qed.

(** C9 at the reordering search: it reports no change on [x * 2] but hands
    back [2 * x]; the division search, next in line, is invoked on [2 * x],
    and so is every later one. *)
Lemma unchanged_result_is_adopted_witness :
  hasChanged (Stub.reordering simplifyBasicsSearch Stub.x_times_two) = false /\
  In (simplifyDivisionSearch, Stub.two_times_x)
     (@stepCalls _ (Stub.collaborators Stub.reordering) Stub.x_times_two) /\
  ~ In (simplifyDivisionSearch, Stub.x_times_two)
       (@stepCalls _ (Stub.collaborators Stub.reordering) Stub.x_times_two).
Proof.
  split; [reflexivity | split].
  - destruct (@unchanged_result_is_adopted
                _ (Stub.collaborators Stub.reordering) Stub.x_times_two
                [] simplifyBasicsSearch
                [ simplifyDivisionSearch; simplifyFractionsSearch;
                  evaluateArithmeticSearch; collectAndCombineSearch;
                  breakUpNumeratorSearch; multiplyFractionsSearch;
                  distributeSearch; evaluateFunctionsSearch ])
      as (_ & _ & Hnext & _).
    + reflexivity.
    + repeat constructor.
    + exact (Hnext _ _ eq_refl).
  - vm_compute. intros H.
    repeat (destruct H as [H | H]; [discriminate H|]). exact H.
Defined.

(** ** Further properties of the driver *)

Section DriverBounds.

Context {Node : Type} `{C : Collaborators Node}.

Lemma statusesFrom_nth (n : nat) :
  forall (nodeStatus : NodeStatus Node) j,
    j < n ->
    nth_error (statusesFrom nodeStatus n) j = Some (statusFrom nodeStatus j).
Proof.
  induction n as [|n IH]; intros nodeStatus j Hj; [lia|].
  destruct j as [|j]; cbn; [reflexivity|].
  apply IH. lia.
Qed.

Lemma firstStatuses_nth (n j : nat) (node : Node) :
  j < n -> nth_error (firstStatuses n node) j = Some (statusAt j node).
Proof.
  intros Hj. unfold firstStatuses.
  rewrite statusesFrom_nth by assumption. rewrite statusAt_from. reflexivity.
Qed.

(** X1. When the call of [step] number [k], with [k] at most
    [MAX_STEP_COUNT], is the first to report no change, the array returned
    has exactly [k] records, the record at index [j] being the one built
    from the [j]-th call of [step], and the loop ends on the record of call
    [k]. *)
Theorem trace_has_one_record_per_change (k : nat) (node : Node) (debug : bool) :
  hasUnsupportedNodes node = false ->
  k <= MAX_STEP_COUNT ->
  (forall j, j < k -> hasChanged (statusAt j node) = true) ->
  hasChanged (statusAt k node) = false ->
  exists trace,
    returned (value (stepThroughExpression node debug)) = Some trace /\
    List.length trace = k /\
    (forall j, j < k -> nth_error trace j = Some (buildStep (statusAt j node))) /\
    lastStatus (value (stepThroughExpression node debug)) = Some (statusAt k node).
Proof.
  intros Hsup Hk Hbefore Hstop.
  rewrite (@stepThroughExpression_stops _ _ k) by assumption.
  exists (map buildStep (firstStatuses k node)). cbn. repeat split.
  - rewrite length_map. apply statusesFrom_length.
  - intros j Hj. rewrite nth_error_map, firstStatuses_nth by assumption.
    reflexivity.
Qed.

(** X2. The cut does not look at the record of the call of [step] made in
    the iteration that reaches the bound: when the first
    [MAX_STEP_COUNT + 1] calls report a change and the next one reports
    none, the empty array is returned all the same, although the loop ended
    on a record without change. *)
Theorem fixed_point_after_bound_is_discarded (node : Node) (debug : bool) :
  hasUnsupportedNodes node = false ->
  (forall j, j <= MAX_STEP_COUNT -> hasChanged (statusAt j node) = true) ->
  hasChanged (statusAt (S MAX_STEP_COUNT) node) = false ->
  exists last,
    lastStatus (value (stepThroughExpression node debug)) = Some last /\
    hasChanged last = false /\
    returned (value (stepThroughExpression node debug)) = Some [].
Proof.
  intros Hsup Hall Hstop.
  rewrite stepThroughExpression_cut by assumption.
  exists (statusAt (S MAX_STEP_COUNT) node). repeat split. exact Hstop.
Qed.

(** X3. The array returned never holds more than [MAX_STEP_COUNT] records
    at its top level. *)
Theorem trace_length_bounded (node : Node) (debug : bool) (trace : list (Step Node)) :
  returned (value (stepThroughExpression node debug)) = Some trace ->
  List.length trace <= MAX_STEP_COUNT.
Proof.
  destruct (stepThroughExpression_cases node)
    as [Hun | [(Hsup & k & Hk & Hbefore & Hstop) | (Hsup & Hall)]].
  - rewrite stepThroughExpression_unsupported by assumption.
    intros [= <-]. cbn. lia.
  - rewrite (@stepThroughExpression_stops _ _ k) by assumption.
    intros [= <-]. rewrite length_map. unfold firstStatuses.
    rewrite statusesFrom_length. exact Hk.
  - rewrite stepThroughExpression_cut by assumption.
    intros [= <-]. cbn. lia.
Qed.

(** X4. A trace that is not empty ends at a fixed point: the last call of
    [step] reported no change and nothing was written to
    [console.error]. *)
Theorem nonempty_trace_ends_at_fixed_point
        (node : Node) (debug : bool) (trace : list (Step Node)) :
  returned (value (stepThroughExpression node debug)) = Some trace ->
  trace <> [] ->
  (exists last,
      lastStatus (value (stepThroughExpression node debug)) = Some last /\
      hasChanged last = false) /\
  errors (emitted (stepThroughExpression node debug)) = [].
Proof.
  destruct (stepThroughExpression_cases node)
    as [Hun | [(Hsup & k & Hk & Hbefore & Hstop) | (Hsup & Hall)]].
  - rewrite stepThroughExpression_unsupported by assumption.
    intros [= <-] Hne. contradiction.
  - rewrite (@stepThroughExpression_stops _ _ k) by assumption.
    intros _ _. unfold value, emitted, fst, snd. split.
    + exists (statusAt k node). split; [reflexivity | exact Hstop].
    + rewrite errors_app, errors_banner, errors_debugOutput. reflexivity.
  - rewrite stepThroughExpression_cut by assumption.
    intros [= <-] Hne. contradiction.
Qed.

(** X5. The loop body runs at most [MAX_STEP_COUNT + 1] times whatever the
    searches do: any fuel above the bound gives the same outcome, and that
    outcome is a returned array. *)
Theorem loop_ends_within_bound (fuel : nat) (node : Node) (debug : bool) :
  MAX_STEP_COUNT < fuel ->
  stepThroughExpressionFuel fuel node debug = stepThroughExpression node debug /\
  exists trace,
    returned (value (stepThroughExpressionFuel fuel node debug)) = Some trace.
Proof.
  intros Hfuel. rewrite stepThroughExpressionFuel_enough by assumption.
  split; [reflexivity | apply stepThroughExpression_returns].
Qed.

(** X6. [console.error] is written at most once in a call, and only for a
    supported tree whose result is the empty array. *)
Theorem notice_only_with_empty_result (node : Node) (debug : bool) :
  errors (emitted (stepThroughExpression node debug)) = []
  \/ (errors (emitted (stepThroughExpression node debug)) =
        [ConsoleError (loopNotice (print node None None))] /\
      returned (value (stepThroughExpression node debug)) = Some [] /\
      hasUnsupportedNodes node = false).
Proof.
  destruct (stepThroughExpression_cases node)
    as [Hun | [(Hsup & k & Hk & Hbefore & Hstop) | (Hsup & Hall)]].
  - left. rewrite stepThroughExpression_unsupported by assumption.
    apply errors_banner.
  - left. rewrite (@stepThroughExpression_stops _ _ k) by assumption.
    unfold emitted, snd.
    rewrite errors_app, errors_banner, errors_debugOutput. reflexivity.
  - right. rewrite stepThroughExpression_cut by assumption.
    unfold emitted, value, fst, snd.
    rewrite !errors_app, errors_banner, errors_debugOutput.
    repeat split. exact Hsup.
Qed.

End DriverBounds.

(** ** The fixed point and the bound *)

Section FixedPoint.

Context {Node : Type} `{C : Collaborators Node}.

(** C2, amended.  Whatever the searches do, [stepThroughExpression]
    returns.  On a supported tree, either some call of [step] within the
    bound is the first to report no change, and then the loop ends on that
    record, the trace holds exactly one record per rewrite, in order, and no
    notice is written; or the first [MAX_STEP_COUNT + 1] calls all report a
    change, and then the loop is cut and the empty array returned, whatever
    the call after them reports.  When every search lowers a measure on the
    tree as it reports a change, and nothing else raises it, the cut can
    only happen on a tree whose measure exceeds [MAX_STEP_COUNT]. *)
Theorem driver_ends_at_fixed_point_unless_cut (node : Node) (debug : bool) :
  (exists trace,
      returned (value (stepThroughExpression node debug)) = Some trace) /\
  (hasUnsupportedNodes node = false ->
   (exists k trace,
       k <= MAX_STEP_COUNT /\
       (forall j, j < k -> hasChanged (statusAt j node) = true) /\
       hasChanged (statusAt k node) = false /\
       value (stepThroughExpression node debug) =
         mkExit (Some trace) (Some (statusAt k node)) /\
       List.length trace = k /\
       (forall j, j < k ->
                  nth_error trace j = Some (buildStep (statusAt j node))) /\
       errors (emitted (stepThroughExpression node debug)) = [])
   \/ ((forall j, j <= MAX_STEP_COUNT -> hasChanged (statusAt j node) = true) /\
       value (stepThroughExpression node debug) =
         mkExit (Some []) (Some (statusAt (S MAX_STEP_COUNT) node)))) /\
  (forall measure : Node -> nat,
      (forall t, measure (flattenOperands t) <= measure t) ->
      (forall t rootNode, measure (removeUnnecessaryParens t rootNode) <= measure t) ->
      (forall t, measure (clone t) <= measure t) ->
      (forall nodeStatus,
          measure (newNode (reset nodeStatus)) <= measure (newNode nodeStatus)) ->
      (forall s t, measure (newNode (search s t)) <= measure t) ->
      (forall s t, hasChanged (search s t) = true ->
                   measure (newNode (search s t)) < measure t) ->
      (forall j, j <= MAX_STEP_COUNT -> hasChanged (statusAt j node) = true) ->
      MAX_STEP_COUNT < measure node).
Proof.
  split; [apply stepThroughExpression_returns | split].
  - intros Hsup.
    destruct (stepThroughExpression_cases node)
      as [Hun | [(_ & k & Hk & Hbefore & Hstop) | (_ & Hall)]].
    + congruence.
    + left. exists k, (map buildStep (firstStatuses k node)).
      rewrite (@stepThroughExpression_stops _ _ k) by assumption.
      unfold value, emitted, fst, snd.
      rewrite errors_app, errors_banner, errors_debugOutput.
      repeat split; try assumption.
      * rewrite length_map. apply statusesFrom_length.
      * intros j Hj. rewrite nth_error_map, firstStatuses_nth by assumption.
        reflexivity.
    + right. rewrite stepThroughExpression_cut by assumption.
      split; [exact Hall | reflexivity].
  - intros measure Hflat Hstrip Hclone Hreset Hle Hlt Hall.
    exact (@cut_needs_large_measure _ _ measure Hflat Hstrip Hclone Hreset Hle Hlt
             node Hall).
Qed.

End FixedPoint.

(** ** Further properties of [addStep] and [step] *)

Section BuilderAndDispatcher.

Context {Node : Type} `{C : Collaborators Node}.

Lemma debugLines_unfold (nodeStatus : NodeStatus Node) :
  debugLines nodeStatus =
    flat_map debugLines (substeps nodeStatus) ++
    [ConsoleLog (changeType nodeStatus);
     ConsoleLog (print (newNode nodeStatus) None None ++ nl)].
Proof. destruct nodeStatus. reflexivity. Qed.

Lemma debugLines_length (nodeStatus : NodeStatus Node) :
  List.length (debugLines nodeStatus) =
    2 * List.length (records (buildStep nodeStatus)).
Proof.
  induction nodeStatus as [c k o n subs IH] using NodeStatus_nested_ind.
  cbn [debugLines buildStep records]. rewrite length_app. cbn [List.length].
  assert (Hsubs : List.length (flat_map debugLines subs) =
                    2 * List.length (flat_map records (map buildStep subs))).
  { induction IH as [|s rest Hs _ IHrest]; cbn [flat_map map].
    - reflexivity.
    - rewrite !length_app, Hs, IHrest. lia. }
  rewrite Hsubs. lia.
Qed.

(** X7. With [debug] off [addStep] writes nothing.  With [debug] on it
    writes what it writes for each sub-step, in their order, and then two
    lines for the record itself, its kind and the rendering of its
    [newNode] followed by a newline: two lines for every step record it
    builds, nested ones included. *)
Theorem addStep_debug_output
        (steps : list (Step Node)) (nodeStatus : NodeStatus Node) :
  emitted (addStep steps nodeStatus false) = [] /\
  emitted (addStep steps nodeStatus true) =
    flat_map (fun sub => emitted (addStep [] sub true)) (substeps nodeStatus) ++
    [ConsoleLog (changeType nodeStatus);
     ConsoleLog (print (newNode nodeStatus) None None ++ nl)] /\
  List.length (emitted (addStep steps nodeStatus true)) =
    2 * List.length (records (buildStep nodeStatus)).
Proof.
  rewrite !addStep_spec. unfold emitted, snd, debugOutput. repeat split.
  - rewrite debugLines_unfold. f_equal.
    apply flat_map_ext. intros sub. rewrite addStep_spec. reflexivity.
  - apply debugLines_length.
Qed.

(** The loop of [step] does not depend on the searches that come after the
    one that fires. *)
Lemma stepLoop_agree (searches' : Search -> Node -> NodeStatus Node)
      (pre : list Search) :
  forall (node : Node) (s : Search) (post : list Search),
    (forall s' t, In s' (pre ++ [s]) -> searches' s' t = search s' t) ->
    Forall unchangedCall (probes pre node) ->
    hasChanged (search s (thread pre node)) = true ->
    @stepLoop Node (withSearches C searches') (pre ++ s :: post) node =
      stepLoop (pre ++ s :: post) node.
Proof.
  induction pre as [|s0 pre IH]; intros node s post Hagree Hall Hfire.
  - cbn in Hfire. cbn [app stepLoop withSearches search flattenOperands
                       removeUnnecessaryParens clone].
    rewrite (Hagree s node) by (left; reflexivity).
    rewrite Hfire. reflexivity.
  - cbn in Hall. inversion Hall as [|? ? Hs0 Hrest]; subst.
    unfold unchangedCall in Hs0. cbn in Hs0.
    cbn [app stepLoop withSearches search flattenOperands
             removeUnnecessaryParens clone].
    rewrite (Hagree s0 node) by (left; reflexivity).
    rewrite Hs0.
    fold (probe node s0).
    change (@stepLoop Node
              {| flattenOperands := flattenOperands;
                 removeUnnecessaryParens := removeUnnecessaryParens;
                 hasUnsupportedNodes := hasUnsupportedNodes;
                 print := print; clone := clone; reset := reset;
                 search := searches' |})
      with (@stepLoop Node (withSearches C searches')).
    rewrite (IH (probe node s0) s post).
    + reflexivity.
    + intros s' t Hin. apply Hagree. right. exact Hin.
    + exact Hrest.
    + exact Hfire.
Qed.

(** X8. What [step] returns, and which searches it invokes on which trees,
    does not depend on the searches listed after the one that fires: two
    assignments of the searches that agree up to that one give the same
    record and the same invocations. *)
Theorem step_ignores_later_searches
        (searches' : Search -> Node -> NodeStatus Node)
        (node : Node) (pre : list Search) (s : Search) (post : list Search) :
  simplificationTreeSearches = pre ++ s :: post ->
  (forall s' t, In s' (pre ++ [s]) -> searches' s' t = search s' t) ->
  Forall unchangedCall (probes pre (normalize node)) ->
  hasChanged (search s (thread pre (normalize node))) = true ->
  @step Node (withSearches C searches') node = step node /\
  @stepCalls Node (withSearches C searches') node = stepCalls node.
Proof.
  intros Hsplit Hagree Hall Hfire.
  assert (Heq : @stepTraced Node (withSearches C searches') node = stepTraced node).
  { unfold stepTraced. rewrite Hsplit.
    change (@normalize Node (withSearches C searches') node) with (normalize node).
    apply stepLoop_agree; assumption. }
  unfold step, stepCalls. rewrite Heq. split; reflexivity.
Qed.

(** X9. [step] reports a change exactly when one of the searches does on
    the tree it is handed; when none does, the record returned is a fresh
    no-change record of the last tree, whatever kind or sub-steps the
    records of the searches carried. *)
Theorem step_changes_iff_a_search_does (node : Node) :
  (hasChanged (step node) = false <->
   Forall unchangedCall (probes simplificationTreeSearches (normalize node))) /\
  (hasChanged (step node) = false ->
   step node = noChange (thread simplificationTreeSearches (normalize node))).
Proof.
  destruct (step_cases node)
    as [(pre & s & post & Hsplit & _ & Hfire & Hstep & _) | (Hall & Hstep & _)].
  - assert (Hchanged : hasChanged (step node) = true)
      by (rewrite Hstep, hasChanged_fired; exact Hfire).
    split; [split|]; intros H; try congruence.
    exfalso. rewrite Hsplit, probes_app in H.
    apply Forall_app in H. destruct H as [_ Hpost].
    cbn in Hpost. inversion Hpost as [|? ? Hs _]; subst.
    unfold unchangedCall in Hs. cbn in Hs. congruence.
  - split; [split|]; intros _; try assumption.
    rewrite Hstep. reflexivity.
Qed.

End BuilderAndDispatcher.

(** *** The further properties on stub collaborators *)

(** X1 at the counting search and the literal [3]: three records, then the
    fixed point [0]. *)
Lemma trace_has_one_record_per_change_witness :
  exists trace,
    returned (value (@stepThroughExpression _ (Stub.collaborators Stub.counting)
                       (ConstantNode 3) false)) = Some trace /\
    List.length trace = 3 /\
    (forall j, j < 3 ->
               nth_error trace j =
                 Some (@buildStep _ (Stub.collaborators Stub.counting)
                         (@statusAt _ (Stub.collaborators Stub.counting)
                            j (ConstantNode 3)))) /\
    lastStatus (value (@stepThroughExpression _ (Stub.collaborators Stub.counting)
                         (ConstantNode 3) false)) =
      Some (@statusAt _ (Stub.collaborators Stub.counting) 3 (ConstantNode 3)).
Proof.
  apply (@trace_has_one_record_per_change _ (Stub.collaborators Stub.counting)
           3 (ConstantNode 3) false).
  - reflexivity.
  - unfold MAX_STEP_COUNT. lia.
  - intros j Hj.
    do 3 (destruct j as [|j]; [vm_compute; reflexivity|]). lia.
  - vm_compute. reflexivity.
Defined.

(** X2 at the counting search and the literal [21]: the call of [step]
    number 21 finds the fixed point [0], and the array is empty. *)
Lemma fixed_point_after_bound_is_discarded_witness :
  exists last,
    lastStatus (value (@stepThroughExpression _ (Stub.collaborators Stub.counting)
                         (ConstantNode 21) false)) = Some last /\
    hasChanged last = false /\
    returned (value (@stepThroughExpression _ (Stub.collaborators Stub.counting)
                       (ConstantNode 21) false)) = Some [].
Proof.
  apply (@fixed_point_after_bound_is_discarded
           _ (Stub.collaborators Stub.counting) (ConstantNode 21) false).
  - reflexivity.
  - intros j Hj. unfold MAX_STEP_COUNT in Hj.
    do 21 (destruct j as [|j]; [vm_compute; reflexivity|]). lia.
  - vm_compute. reflexivity.
Defined.

(** X3 at the counting search and the literal [20], the longest trace there
    is. *)
Lemma trace_length_bounded_witness :
  exists trace,
    returned (value (@stepThroughExpression _ (Stub.collaborators Stub.counting)
                       (ConstantNode 20) false)) = Some trace /\
    List.length trace = 20 /\
    List.length trace <= MAX_STEP_COUNT.
Proof.
  eexists. split; [vm_compute; reflexivity | split; [reflexivity|]].
  apply (@trace_length_bounded _ (Stub.collaborators Stub.counting)
           (ConstantNode 20) false).
  vm_compute. reflexivity.
Defined.

(** X4 at [2 + 2]. *)
Lemma nonempty_trace_ends_at_fixed_point_witness :
  (exists last,
      lastStatus (value (@stepThroughExpression _ (Stub.collaborators Stub.adding)
                           Stub.two_plus_two true)) = Some last /\
      hasChanged last = false) /\
  errors (emitted (@stepThroughExpression _ (Stub.collaborators Stub.adding)
                     Stub.two_plus_two true)) = [].
Proof.
  apply (@nonempty_trace_ends_at_fixed_point
           _ (Stub.collaborators Stub.adding) Stub.two_plus_two true
           [mkStep "SIMPLIFY_ARITHMETIC" Stub.two_plus_two (ConstantNode 4) [] "4"]).
  - vm_compute. reflexivity.
  - discriminate.
Defined.

(** X5 with fuel for a hundred iterations on the oscillating searches. *)
Lemma loop_ends_within_bound_witness :
  @stepThroughExpressionFuel _ (Stub.collaborators Stub.oscillate) 100 Stub.x false =
    @stepThroughExpression _ (Stub.collaborators Stub.oscillate) Stub.x false /\
  exists trace,
    returned (value (@stepThroughExpressionFuel _ (Stub.collaborators Stub.oscillate)
                       100 Stub.x false)) = Some trace.
Proof.
  apply (@loop_ends_within_bound _ (Stub.collaborators Stub.oscillate)
           100 Stub.x false).
  unfold MAX_STEP_COUNT. lia.
Defined.

(** X8 at [1 * (x + y) + 3]: the basic search fires, and it makes no
    difference that the arithmetic search would count literals down. *)
Lemma step_ignores_later_searches_witness :
  @step _ (withSearches (Stub.collaborators Stub.unnesting)
             Stub.unnesting_then_counting) Stub.one_times_sum_plus_three =
    @step _ (Stub.collaborators Stub.unnesting) Stub.one_times_sum_plus_three /\
  @stepCalls _ (withSearches (Stub.collaborators Stub.unnesting)
                  Stub.unnesting_then_counting) Stub.one_times_sum_plus_three =
    @stepCalls _ (Stub.collaborators Stub.unnesting) Stub.one_times_sum_plus_three.
Proof.
  apply (@step_ignores_later_searches
           _ (Stub.collaborators Stub.unnesting) Stub.unnesting_then_counting
           Stub.one_times_sum_plus_three
           [] simplifyBasicsSearch
           [ simplifyDivisionSearch; simplifyFractionsSearch;
             evaluateArithmeticSearch; collectAndCombineSearch;
             breakUpNumeratorSearch; multiplyFractionsSearch;
             distributeSearch; evaluateFunctionsSearch ]).
  - reflexivity.
  - intros s' t [<- | []]. reflexivity.
  - constructor.
  - reflexivity.
Defined.

(** *** The bound and the order of the searches on stub collaborators *)

(** C2, amended, at the counting search: on the literal [5] the loop ends
    on a record without change after five rewrites; on the literal [25] it
    is cut, and the weight of that tree does exceed the bound. *)
Lemma driver_ends_at_fixed_point_unless_cut_witness :
  (exists k trace last,
      value (@stepThroughExpression _ (Stub.collaborators Stub.counting)
               (ConstantNode 5) false) = mkExit (Some trace) (Some last) /\
      List.length trace = k /\
      hasChanged last = false) /\
  MAX_STEP_COUNT < Stub.weight (ConstantNode 25).
Proof.
  split.
  - destruct (@driver_ends_at_fixed_point_unless_cut
                _ (Stub.collaborators Stub.counting) (ConstantNode 5) false)
      as (_ & Hcases & _).
    destruct (Hcases eq_refl)
      as [(k & trace & _ & _ & Hstop & Hvalue & Hlength & _) | (Hall & _)].
    + exists k, trace. eexists. split; [exact Hvalue | split; assumption].
    + exfalso.
      assert (H5 : 5 <= MAX_STEP_COUNT) by (unfold MAX_STEP_COUNT; lia).
      pose proof (Hall 5 H5) as Hchanged.
      vm_compute in Hchanged. discriminate Hchanged.
  - destruct (@driver_ends_at_fixed_point_unless_cut
                _ (Stub.collaborators Stub.counting) (ConstantNode 25) false)
      as (_ & _ & Hmeasure).
    apply (Hmeasure Stub.weight).
    + intros t. cbn. rewrite weight_flatten. apply Nat.le_refl.
    + intros t rootNode. cbn. rewrite weight_removeParens. apply Nat.le_refl.
    + intros t. apply Nat.le_refl.
    + intros nodeStatus. apply Nat.le_refl.
    + exact counting_weight.
    + exact counting_lowers.
    + intros j Hj. unfold MAX_STEP_COUNT in Hj.
      do 21 (destruct j as [|j]; [vm_compute; reflexivity|]). lia.
Defined.

(** C4 at two searches in conflict: both the arithmetic and the collecting
    search match [2 + 2]; the three searches before them are called first,
    then the arithmetic search, whose record is returned, and the
    collecting search is never called. *)
Lemma searches_tried_in_fixed_order_witness :
  hasChanged (Stub.conflicting collectAndCombineSearch Stub.two_plus_two) = true /\
  @step _ (Stub.collaborators Stub.conflicting) Stub.two_plus_two =
    mkNodeStatus true "SIMPLIFY_ARITHMETIC" Stub.two_plus_two (ConstantNode 4) [] /\
  @stepCalls _ (Stub.collaborators Stub.conflicting) Stub.two_plus_two =
    [ (simplifyBasicsSearch, Stub.two_plus_two);
      (simplifyDivisionSearch, Stub.two_plus_two);
      (simplifyFractionsSearch, Stub.two_plus_two);
      (evaluateArithmeticSearch, Stub.two_plus_two) ].
Proof.
  split; [reflexivity|].
  destruct (@searches_tried_in_fixed_order
              _ (Stub.collaborators Stub.conflicting) Stub.two_plus_two
              [simplifyBasicsSearch; simplifyDivisionSearch; simplifyFractionsSearch]
              evaluateArithmeticSearch
              [ collectAndCombineSearch; breakUpNumeratorSearch;
                multiplyFractionsSearch; distributeSearch;
                evaluateFunctionsSearch ])
    as (_ & Hfires & _).
  - reflexivity.
  - repeat constructor.
  - destruct (Hfires eq_refl) as [Hstep Hcalls].
    split; [exact Hstep | exact Hcalls].
Defined.
